(** * Bit-bashed I2C master (bbi2c/i2c_master.c)

    A shallow embedding of the bit-bashed I2C master: the two bus lines are
    reached through the line driver of [i2c_private.h]; everything the
    master does to the lines, and everything it reads from them, is
    recorded in a trace, and the other parties on the bus are a strategy
    that answers every read from the trace so far. *)

From Stdlib Require Import ZArith List Bool Lia.
From stdpp Require Import base list.
Import ListNotations.

Local Open Scope Z_scope.

(** ** Configuration records and the device structure *)

(** Modelled from the spec: a PIO line is named by a number; the bus
    configuration of [i2c_master.h] lists the two lines of one bus. *)
Definition pio_t := Z.

Record i2c_bus_cfg_t := { scl : pio_t; sda : pio_t }.

(** Modelled from the spec: the slave configuration, with the two fields the
    source reads ([dev->slave->id] and [dev->slave->addr_bytes]). *)
Record i2c_slave_cfg_t := { id : Z; addr_bytes : Z }.

(** [i2c_dev_t]: the source assigns [dev->bus] and [dev->slave]; both point
    to constant configurations owned by the caller, held here by value. *)
Record i2c_dev_t := { bus : i2c_bus_cfg_t; slave : i2c_slave_cfg_t }.

(** ** Constants of the headers *)

(** The status codes and the action flags are declared in [i2c_master.h],
    so they are parameters of the development.  [I2C_ERROR_CONFLICT] is
    named by the source.
    Modelled from the spec: [I2C_ERROR_TIMEOUT] is the status with which
    the bounded clock wait reports that the clock line stayed low. *)
Class i2c_header := {
  I2C_OK : Z;
  I2C_ERROR_CONFLICT : Z;
  I2C_ERROR_TIMEOUT : Z;
  I2C_START : Z;
  I2C_STOP : Z;
  I2C_READ : Z;
  I2C_WRITE : Z
}.

(** Modelled from the spec: what the spec says of these constants.  Errors
    are negative and success is not; the four action flags are non-zero and
    pairwise orthogonal bit masks. *)
Record header_ok (hdr : i2c_header) : Prop := {
  ok_nonneg : 0 <= I2C_OK;
  conflict_neg : I2C_ERROR_CONFLICT < 0;
  timeout_neg : I2C_ERROR_TIMEOUT < 0;
  start_set : I2C_START <> 0;
  stop_set : I2C_STOP <> 0;
  read_set : I2C_READ <> 0;
  write_set : I2C_WRITE <> 0;
  start_stop : Z.land I2C_START I2C_STOP = 0;
  start_read : Z.land I2C_START I2C_READ = 0;
  start_write : Z.land I2C_START I2C_WRITE = 0;
  stop_read : Z.land I2C_STOP I2C_READ = 0;
  stop_write : Z.land I2C_STOP I2C_WRITE = 0;
  read_write : Z.land I2C_READ I2C_WRITE = 0
}.

(** ** The bus as seen from the master *)

Inductive event :=
| SdaSet (b : i2c_bus_cfg_t) (level : bool)
| SclSet (b : i2c_bus_cfg_t) (level : bool)
| SdaGet (b : i2c_bus_cfg_t) (level : bool)
| SclWait (b : i2c_bus_cfg_t) (released : bool)
| DelayUs (us : Z).

Definition trace := list event.

(** The other parties on the bus.  [sda_reads b tr] is the level the master
    reads on the data line of bus [b] after the events [tr];
    [scl_released b tr] tells whether the clock line of [b] reads high
    within the bounded wait. *)
Record peer_t := {
  sda_reads : i2c_bus_cfg_t -> trace -> bool;
  scl_released : i2c_bus_cfg_t -> trace -> bool
}.

(** ** State and early return *)

Definition M (A : Type) : Type := trace -> A * trace.

Definition st_ret {A} (a : A) : M A := fun tr => (a, tr).

Definition st_bind {A B} (m : M A) (k : A -> M B) : M B :=
  fun tr => let (a, tr') := m tr in k a tr'.

Definition emit (e : event) : M unit := fun tr => (tt, tr ++ [e]).

Declare Scope i2c_scope.
Delimit Scope i2c_scope with i2c.
Notation "x <- m ;; k" := (st_bind m (fun x => k))
  (at level 100, m at next level, k at level 200, right associativity,
   only parsing) : i2c_scope.
Notation "m ;; k" := (st_bind m (fun _ => k))
  (at level 100, k at level 200, right associativity,
   only parsing) : i2c_scope.
Local Open Scope i2c_scope.

Definition b2z (b : bool) : Z := if b then 1 else 0.

Definition uint8 (z : Z) : Z := z mod 256.

(** Conversion of an integer to [bool]. *)
Definition to_bool (z : Z) : bool := negb (z =? 0).

Section Master.

Context {hdr : i2c_header}.
Variable peer : peer_t.

(** The idiom [ret = f (...); if (ret != I2C_OK) return ret;]. *)
Definition guard {A} (m : M Z) (fail : Z -> A) (k : Z -> M A) : M A :=
  ret <- m ;; if ret =? I2C_OK then k ret else st_ret (fail ret).

(** *** Line driver ([i2c_private.h]) *)

(** Modelled from the spec: the line driver interface of section 6.  The
    setters drive a line low (0) or release it (1); [i2c_sda_get] reads the
    data line; [i2c_scl_wait] polls the clock line for a bounded time and
    reports [I2C_OK] when it reads high, the timeout status otherwise. *)
Definition i2c_sda_set (dev : i2c_dev_t) (state : bool) : M unit :=
  emit (SdaSet (bus dev) state).

Definition i2c_scl_set (dev : i2c_dev_t) (state : bool) : M unit :=
  emit (SclSet (bus dev) state).

Definition i2c_sda_get (dev : i2c_dev_t) : M bool :=
  fun tr => let v := sda_reads peer (bus dev) tr in
            (v, tr ++ [SdaGet (bus dev) v]).

Definition i2c_scl_wait (dev : i2c_dev_t) : M Z :=
  fun tr => let r := scl_released peer (bus dev) tr in
            (if r then I2C_OK else I2C_ERROR_TIMEOUT,
             tr ++ [SclWait (bus dev) r]).

Definition DELAY_US (us : Z) : M unit := emit (DelayUs us).

(** *** Bit transfer *)

Definition i2c_master_recv_bit (dev : i2c_dev_t) : M Z :=
  i2c_sda_set dev true ;;
  DELAY_US 4 ;;
  i2c_scl_set dev true ;;
  guard (i2c_scl_wait dev) (fun ret => ret) (fun _ =>
    bit <- i2c_sda_get dev ;;
    DELAY_US 4 ;;
    i2c_scl_set dev false ;;
    st_ret (b2z bit)).

Definition i2c_master_send_bit (dev : i2c_dev_t) (bit : bool) : M Z :=
  i2c_sda_set dev bit ;;
  i2c_scl_set dev true ;;
  guard (i2c_scl_wait dev) (fun ret => ret) (fun _ =>
    (* [bit && !i2c_sda_get (dev)]: the line is read only when [bit] is set *)
    lost <- (if bit then level <- i2c_sda_get dev ;; st_ret (negb level)
             else st_ret false) ;;
    if lost : bool then st_ret 0
    else
      DELAY_US 4 ;;
      i2c_scl_set dev false ;;
      st_ret 1).

Definition i2c_master_recv_ack (dev : i2c_dev_t) : M Z :=
  i2c_master_recv_bit dev.

Definition i2c_master_send_ack (dev : i2c_dev_t) : M Z :=
  i2c_master_send_bit dev false.

Definition i2c_master_send_nack (dev : i2c_dev_t) : M Z :=
  i2c_master_send_bit dev true.

(** *** Byte transfer *)

(** The loop of [i2c_master_send_byte] with [n] iterations left; leaving the
    loop runs the statement after it. *)
Fixpoint send_byte_loop (dev : i2c_dev_t) (n : nat) (data : Z) : M Z :=
  match n with
  | O => i2c_master_recv_ack dev
  | S n' =>
      guard (i2c_master_send_bit dev (to_bool (Z.land (Z.shiftr data 7) 1)))
        (fun ret => ret)
        (fun _ => send_byte_loop dev n' (uint8 (Z.shiftl data 1)))
  end.

Definition i2c_master_send_byte (dev : i2c_dev_t) (data : Z) : M Z :=
  send_byte_loop dev 8 data.

(** The loop of [i2c_master_recv_byte] with [n] iterations left.  [out] is
    the content of the location [data] points to; its content on return
    comes back with the status. *)
Fixpoint recv_byte_loop (dev : i2c_dev_t) (n : nat) (d : Z) (out : Z)
  : M (Z * Z) :=
  match n with
  | O =>
      ret <- i2c_master_send_ack dev ;;
      st_ret (ret, d)
  | S n' =>
      guard (i2c_master_recv_bit dev)
        (fun ret => (ret, out))
        (fun ret =>
           recv_byte_loop dev n' (uint8 (Z.lor (Z.shiftl d 1) ret)) out)
  end.

Definition i2c_master_recv_byte (dev : i2c_dev_t) (out : Z) : M (Z * Z) :=
  recv_byte_loop dev 8 0 out.

(** *** Start, stop and address *)

Definition i2c_master_send_start (dev : i2c_dev_t) : M Z :=
  level <- i2c_sda_get dev ;;
  if negb level then st_ret I2C_ERROR_CONFLICT
  else
    i2c_sda_set dev false ;;
    DELAY_US 4 ;;
    i2c_scl_set dev false ;;
    st_ret I2C_OK.

Definition i2c_master_send_stop (dev : i2c_dev_t) : M Z :=
  i2c_sda_set dev false ;;
  DELAY_US 4 ;;
  i2c_scl_set dev true ;;
  _ <- i2c_scl_wait dev ;;
  DELAY_US 4 ;;
  i2c_sda_set dev true ;;
  st_ret I2C_OK.

Definition i2c_master_send_addr (dev : i2c_dev_t) (read : bool) : M Z :=
  i2c_master_send_byte dev
    (uint8 (Z.lor (Z.shiftl (id (slave dev)) 1) (b2z read))).

(** *** Transactions *)

(** [buffer] is the memory [buffer] points to, one byte per element; the
    caller provides at least [size] bytes (reading past them is left
    undefined by C: here the read yields 0 and the write nothing).  The
    buffer as it is on return comes back with the result.  The parameter
    [size] is a [uint8_t]: whatever the caller passes is converted to it,
    so the loop makes [uint8 size] iterations. *)
Definition buf_get (buffer : list Z) (i : nat) : Z :=
  default 0 (buffer !! i).

(** The data loop of [i2c_master_transfer] with [n] iterations left and the
    counter at [i], followed by the statements after the loop. *)
Fixpoint transfer_loop (dev : i2c_dev_t) (action : Z) (n i : nat)
  (buffer : list Z) : M (Z * list Z) :=
  match n with
  | O =>
      if to_bool (Z.land action I2C_STOP) then
        guard (i2c_master_send_stop dev)
          (fun ret => (ret, buffer))
          (fun _ => st_ret (Z.of_nat i, buffer))
      else st_ret (Z.of_nat i, buffer)
  | S n' =>
      if to_bool (Z.land action I2C_WRITE) then
        guard (i2c_master_send_byte dev (buf_get buffer i))
          (fun ret => (ret, buffer))
          (fun _ => transfer_loop dev action n' (S i) buffer)
      else
        r <- i2c_master_recv_byte dev (buf_get buffer i) ;;
        let buffer' := <[i := snd r]> buffer in
        if fst r =? I2C_OK then transfer_loop dev action n' (S i) buffer'
        else st_ret (fst r, buffer')
  end.

Definition i2c_master_transfer (dev : i2c_dev_t) (buffer : list Z)
  (size : Z) (action : Z) : M (Z * list Z) :=
  let data_and_stop :=
    transfer_loop dev action (Z.to_nat (uint8 size)) 0 buffer in
  if to_bool (Z.land action I2C_START) then
    guard (i2c_master_send_start dev)
      (fun ret => (ret, buffer))
      (fun _ =>
         guard (i2c_master_send_addr dev (to_bool (Z.land action I2C_READ)))
           (fun ret => (ret, buffer))
           (fun _ => data_and_stop))
  else data_and_stop.

(** [addr] is the object representation of the [i2c_addr_t] argument, of
    which the first transfer sends [addr_bytes] bytes.  Both sizes reach
    [i2c_master_transfer] through its [uint8_t] parameter. *)
Definition i2c_master_addr_read (dev : i2c_dev_t) (addr : list Z)
  (buffer : list Z) (size : Z) : M (Z * list Z) :=
  r <- i2c_master_transfer dev addr (addr_bytes (slave dev))
         (Z.lor I2C_START I2C_WRITE) ;;
  if fst r <? 0 then st_ret (fst r, buffer)
  else i2c_master_transfer dev buffer size (Z.lor I2C_WRITE I2C_STOP).

Definition i2c_master_addr_write (dev : i2c_dev_t) (addr : list Z)
  (buffer : list Z) (size : Z) : M (Z * list Z) :=
  r <- i2c_master_transfer dev addr (addr_bytes (slave dev))
         (Z.lor I2C_START I2C_WRITE) ;;
  if fst r <? 0 then st_ret (fst r, buffer)
  else i2c_master_transfer dev buffer size (Z.lor I2C_WRITE I2C_STOP).

End Master.

(** ** Device registry *)

(** The two statics of the file: the counter (a [uint8_t]) and the table,
    whose slots are unbound until [i2c_master_init] fills them. *)
Record registry := {
  i2c_devices_num : Z;
  i2c_devices : list (option i2c_dev_t)
}.

(** A handle [i2c_t] is a pointer into the table: [Some k] is
    [i2c_devices + k] and [None] the null pointer. *)
Definition i2c_t := option nat.

Section Registry.

(** The capacity: 4 unless the build defines it otherwise. *)
Variable I2C_DEVICES_NUM : Z.

Definition registry_reset : registry :=
  {| i2c_devices_num := 0;
     i2c_devices := replicate (Z.to_nat I2C_DEVICES_NUM) None |}.

Definition i2c_master_init (bus_cfg : i2c_bus_cfg_t)
  (slave_cfg : i2c_slave_cfg_t) (reg : registry)
  : M (i2c_t * registry) :=
  if I2C_DEVICES_NUM <=? i2c_devices_num reg then st_ret (None, reg)
  else
    let k := Z.to_nat (i2c_devices_num reg) in
    let dev := {| bus := bus_cfg; slave := slave_cfg |} in
    let reg' := {| i2c_devices_num := uint8 (i2c_devices_num reg + 1);
                   i2c_devices := <[k := Some dev]> (i2c_devices reg) |} in
    i2c_sda_set dev true ;;
    i2c_scl_set dev true ;;
    st_ret (Some k, reg').

(** What a handle points to. *)
Definition deref (reg : registry) (h : i2c_t) : option i2c_dev_t :=
  match h with
  | None => None
  | Some k => mjoin (i2c_devices reg !! k)
  end.

End Registry.

(** ** Lines and peers *)

Definition bus_eqb (b1 b2 : i2c_bus_cfg_t) : bool :=
  (scl b1 =? scl b2) && (sda b1 =? sda b2).

(** The levels the master asks for on the clock and data lines of a bus:
    driven low ([false]) or released ([true]).  On an open-drain bus a line
    driven low is low; a released line is high only if nobody else holds it
    low. *)
Record lines := { scl_out : bool; sda_out : bool }.

(** Both lines are released when nothing has been driven yet. *)
Definition released : lines := {| scl_out := true; sda_out := true |}.

(** The levels asked for through the bus configuration [b]: an event counts
    when it names this very configuration.  What happens to a single pin,
    whichever configuration names it, is [pin_after] below. *)
Definition drive (b : i2c_bus_cfg_t) (st : lines) (e : event) : lines :=
  match e with
  | SdaSet b' l =>
      if bus_eqb b b' then {| scl_out := scl_out st; sda_out := l |} else st
  | SclSet b' l =>
      if bus_eqb b b' then {| scl_out := l; sda_out := sda_out st |} else st
  | _ => st
  end.

Definition lines_after (b : i2c_bus_cfg_t) (st : lines) (tr : trace) : lines :=
  fold_left (drive b) tr st.

(** What the master asks of the bus: a start condition (it pulls the data
    line low while it has the clock line released), a stop condition (it
    releases the data line while it has the clock line released), or a bit
    (the level it has on the data line during a clock pulse that it saw go
    high).  The clock level is the one the master asked for, so a listener
    sees a start or stop condition counted here only if the clock line is
    really high at that moment; it sees none that is not counted here.  A
    count of zero is thus a fact about the bus; a positive count is one
    where the clock line is known to be high: a clock wait has just seen
    it high, or no other party ever holds it. *)
Inductive signal := START | STOP | BIT (level : bool).

Definition signal_of (b : i2c_bus_cfg_t) (st : lines) (e : event)
  : list signal :=
  match e with
  | SdaSet b' l =>
      if bus_eqb b b' && scl_out st then
        if sda_out st && negb l then [START]
        else if negb (sda_out st) && l then [STOP]
        else []
      else []
  | SclWait b' true => if bus_eqb b b' then [BIT (sda_out st)] else []
  | _ => []
  end.

Fixpoint signals (b : i2c_bus_cfg_t) (st : lines) (tr : trace)
  : list signal :=
  match tr with
  | [] => []
  | e :: tr' => signal_of b st e ++ signals b (drive b st e) tr'
  end.

Definition bits_of (sigs : list signal) : list bool :=
  flat_map (fun s => match s with BIT l => [l] | _ => [] end) sigs.

Definition count_signal (want : signal -> bool) (sigs : list signal) : nat :=
  length (List.filter want sigs).

Definition is_start (s : signal) : bool :=
  match s with START => true | _ => false end.

Definition is_stop (s : signal) : bool :=
  match s with STOP => true | _ => false end.

(** Number of reads of the data line, and of clock pulses seen high, in a
    trace. *)
Definition is_read (e : event) : bool :=
  match e with SdaGet _ _ => true | _ => false end.

Definition is_pulse (e : event) : bool :=
  match e with SclWait _ true => true | _ => false end.

Definition reads_in (tr : trace) : nat := length (List.filter is_read tr).

Definition pulses_in (tr : trace) : nat := length (List.filter is_pulse tr).

(** An open-drain bus: the data line reads low as soon as the master or
    another party pulls it low. *)
Definition open_drain (others_sda others_scl : trace -> bool) : peer_t :=
  {| sda_reads b tr := sda_out (lines_after b released tr) && others_sda tr;
     scl_released _ tr := others_scl tr |}.

(** Nobody else on the bus. *)
Definition idle_bus : peer_t := open_drain (fun _ => true) (fun _ => true).

(** A party that holds the clock line low. *)
Definition stuck_clock : peer_t := open_drain (fun _ => true) (fun _ => false).

(** Another master that holds the data line low. *)
Definition busy_bus : peer_t := open_drain (fun _ => false) (fun _ => true).

(** A slave that acknowledges: it pulls the data line low during every
    ninth clock pulse. *)
Definition ack_slave : peer_t :=
  open_drain
    (fun tr =>
       negb (Nat.eqb (pulses_in tr `mod` 9) 0
             && negb (Nat.eqb (pulses_in tr) 0)))
    (fun _ => true).

(** A sender on the other side: the [k]-th read of the data line samples
    the [k]-th of [bits]; after them the line is idle. *)
Definition sender (bits : list bool) : peer_t :=
  {| sda_reads _ tr := default true (bits !! reads_in tr);
     scl_released _ _ := true |}.

(** Header constants for examples: the success status is [ok]. *)
Definition header_with (ok : Z) : i2c_header :=
  {| I2C_OK := ok; I2C_ERROR_CONFLICT := -1; I2C_ERROR_TIMEOUT := -2;
     I2C_START := 1; I2C_STOP := 2; I2C_READ := 4; I2C_WRITE := 8 |}.

Definition dev0 : i2c_dev_t :=
  {| bus := {| scl := 0; sda := 1 |};
     slave := {| id := 0x50; addr_bytes := 1 |} |}.

(** A party that lets [n] clock pulses through and then holds the clock
    line low. *)
Definition stretch_after (n : nat) : peer_t :=
  open_drain (fun _ => true) (fun tr => Nat.ltb (pulses_in tr) n).

Definition four_cfgs : list (i2c_bus_cfg_t * i2c_slave_cfg_t) :=
  [({| scl := 0; sda := 1 |}, {| id := 0x50; addr_bytes := 1 |});
   ({| scl := 0; sda := 1 |}, {| id := 0x51; addr_bytes := 2 |});
   ({| scl := 2; sda := 3 |}, {| id := 0x50; addr_bytes := 1 |});
   ({| scl := 4; sda := 5 |}, {| id := 0x68; addr_bytes := 1 |})].

Definition fifth_cfg : i2c_bus_cfg_t * i2c_slave_cfg_t :=
  ({| scl := 6; sda := 7 |}, {| id := 0x20; addr_bytes := 1 |}).

(** ** Vocabulary of the statements *)

(** The bits of a byte, most significant first, and the number they spell. *)
Definition msb_bits (data : Z) : list bool :=
  map (fun i => Z.testbit data (Z.of_nat i)) [7; 6; 5; 4; 3; 2; 1; 0]%nat.

Definition of_bits (bits : list bool) : Z :=
  fold_left (fun acc bit => 2 * acc + b2z bit) bits 0.

(** The bits [send_byte_loop] hands to [i2c_master_send_bit] in [n]
    iterations. *)
Fixpoint loop_bits (n : nat) (data : Z) : list bool :=
  match n with
  | O => []
  | S n' =>
      to_bool (Z.land (Z.shiftr data 7) 1)
      :: loop_bits n' (uint8 (Z.shiftl data 1))
  end.

(** The value [recv_byte_loop] has shifted into [d] after [n] iterations
    that all went on. *)
Definition shifted_in {hdr : i2c_header} (n : nat) (d : Z) : Z :=
  Nat.iter n (fun d => uint8 (Z.lor (Z.shiftl d 1) I2C_OK)) d.

(** Runs the phases one after the other, whatever their results, and
    returns the results with the final trace. *)
Fixpoint run_all (ms : list (M Z)) (tr : trace) : list Z * trace :=
  match ms with
  | [] => ([], tr)
  | m :: ms' =>
      let r := m tr in
      let rs := run_all ms' (snd r) in
      (fst r :: fst rs, snd rs)
  end.

Section Vocabulary.

Context {hdr : i2c_header}.
Variable peer : peer_t.
Variable dev : i2c_dev_t.

(** The trace after a run of calls to [i2c_master_send_bit], one per bit,
    and after [k] calls to [i2c_master_recv_bit]. *)
Definition after_send_bits (bits : list bool) (tr : trace) : trace :=
  fold_left (fun t bit => snd (i2c_master_send_bit peer dev bit t)) bits tr.

Definition after_recv_bits (k : nat) (tr : trace) : trace :=
  Nat.iter k (fun t => snd (i2c_master_recv_bit peer dev t)) tr.

Definition after_stop (tr : trace) : trace :=
  snd (i2c_master_send_stop peer dev tr).

(** The data phase for byte [i]: a byte sent, or a byte received. *)
Definition byte_phase (action : Z) (buffer : list Z) (i : nat) : M Z :=
  if to_bool (Z.land action I2C_WRITE) then
    i2c_master_send_byte peer dev (buf_get buffer i)
  else
    fun tr =>
      let r := i2c_master_recv_byte peer dev (buf_get buffer i) tr in
      (fst (fst r), snd r).

Definition stop_phase (action : Z) : list (M Z) :=
  if to_bool (Z.land action I2C_STOP) then [i2c_master_send_stop peer dev]
  else [].

Definition start_phase (action : Z) : list (M Z) :=
  if to_bool (Z.land action I2C_START) then
    [i2c_master_send_start peer dev;
     i2c_master_send_addr peer dev (to_bool (Z.land action I2C_READ))]
  else [].

(** The phases that the action flags ask for, in order; [size] counts as
    the [uint8_t] it is converted to. *)
Definition phases (buffer : list Z) (size : Z) (action : Z) : list (M Z) :=
  start_phase action
  ++ map (byte_phase action buffer) (seq 0 (Z.to_nat (uint8 size)))
  ++ stop_phase action.

Definition all_ok (results : list Z) : Prop :=
  Forall (fun r => r = I2C_OK) results.

(** Start and stop conditions seen on the bus of [dev] in a trace, and
    whether the clock line of [dev] is driven low at its end. *)
Definition starts_in (tr : trace) : nat :=
  count_signal is_start (signals (bus dev) released tr).

Definition stops_in (tr : trace) : nat :=
  count_signal is_stop (signals (bus dev) released tr).

Definition clock_low (tr : trace) : Prop :=
  scl_out (lines_after (bus dev) released tr) = false.

(** The data levels of the clock pulses that went high on the bus of [dev],
    in order. *)
Definition bits_in (tr : trace) : list bool :=
  bits_of (signals (bus dev) released tr).

End Vocabulary.

Section RegistryVocabulary.

Variable I2C_DEVICES_NUM : Z.

Definition mkdev (c : i2c_bus_cfg_t * i2c_slave_cfg_t) : i2c_dev_t :=
  {| bus := fst c; slave := snd c |}.

(** One call to [i2c_master_init] per configuration, in order. *)
Fixpoint init_all (cfgs : list (i2c_bus_cfg_t * i2c_slave_cfg_t))
  (reg : registry) : M (list i2c_t * registry) :=
  match cfgs with
  | [] => st_ret ([], reg)
  | c :: rest =>
      r <- i2c_master_init I2C_DEVICES_NUM (fst c) (snd c) reg ;;
      rs <- init_all rest (snd r) ;;
      st_ret (fst r :: fst rs, snd rs)
  end.

(** The counter is [k] and the table has its full length. *)
Definition reg_at (reg : registry) (k : nat) : Prop :=
  i2c_devices_num reg = Z.of_nat k /\
  length (i2c_devices reg) = Z.to_nat I2C_DEVICES_NUM.

End RegistryVocabulary.

(** A back-to-back loop: [tx] sends [data] with [i2c_master_send_byte] to a
    party that takes every bit and acknowledges; the bits it put on the bus
    are then what [rx] samples, one per read, in
    [i2c_master_recv_byte].  The result is the content of the output
    location of [rx], which held [out] before. *)
Definition loopback {hdr : i2c_header} (tx rx : i2c_dev_t) (data out : Z)
  : Z :=
  let sent := snd (i2c_master_send_byte ack_slave tx data []) in
  let bits := bits_of (signals (bus tx) released sent) in
  snd (fst (i2c_master_recv_byte (sender bits) rx out [])).

(** ** Vocabulary of the further properties *)

(** An event on the lines of bus [b], or a delay. *)
Definition on_bus (b : i2c_bus_cfg_t) (e : event) : Prop :=
  match e with
  | SdaSet b' _ | SclSet b' _ | SdaGet b' _ | SclWait b' _ => b' = b
  | DelayUs _ => True
  end.

(** A computation that only adds events to the trace, all of them
    satisfying [P]. *)
Definition appends {A} (P : event -> Prop) (m : M A) : Prop :=
  forall tr, exists suffix, snd (m tr) = tr ++ suffix /\ Forall P suffix.

(** A device whose slave identifier has bit 6 clear. *)
Definition dev1 : i2c_dev_t :=
  {| bus := {| scl := 2; sda := 3 |};
     slave := {| id := 0x20; addr_bytes := 1 |} |}.

(** The level last written to the pin [p], whichever bus configuration
    named it; [lvl] is its level before the trace. *)
Definition pin_drive (p : pio_t) (lvl : bool) (e : event) : bool :=
  match e with
  | SdaSet b l => if sda b =? p then l else lvl
  | SclSet b l => if scl b =? p then l else lvl
  | _ => lvl
  end.

Definition pin_after (p : pio_t) (lvl : bool) (tr : trace) : bool :=
  fold_left (pin_drive p) tr lvl.

(** An event that reads or writes the pin [p]. *)
Definition touches (p : pio_t) (e : event) : bool :=
  match e with
  | SdaSet b _ | SdaGet b _ => sda b =? p
  | SclSet b _ | SclWait b _ => scl b =? p
  | DelayUs _ => false
  end.

(** The first [k] results are the success status and the next one is [e],
    which is not. *)
Definition first_failure {hdr : i2c_header} (results : list Z) (k : nat)
  (e : Z) : Prop :=
  (forall j r, (j < k)%nat -> results !! j = Some r -> r = I2C_OK) /\
  results !! k = Some e /\ e <> I2C_OK.

(** The number of configurations of [cfgs] that find a free slot in a table
    of [n] slots, and the number that do not. *)
Definition served (n : nat) (cfgs : list (i2c_bus_cfg_t * i2c_slave_cfg_t))
  : nat := Nat.min (length cfgs) n.

Definition refused (n : nat) (cfgs : list (i2c_bus_cfg_t * i2c_slave_cfg_t))
  : nat := (length cfgs - n)%nat.

(** * Properties *)

(** ** Basic facts *)

Lemma bus_eqb_refl (b : i2c_bus_cfg_t) : bus_eqb b b = true.
Proof. unfold bus_eqb. now rewrite !Z.eqb_refl. Qed.

Lemma header_with_ok (ok : Z) : 0 <= ok -> header_ok (header_with ok).
Proof. intros H. split; simpl; try lia; reflexivity. Qed.

Lemma timeout_not_ok (hdr : i2c_header) :
  header_ok hdr -> I2C_ERROR_TIMEOUT <> I2C_OK.
Proof. intros [? ? ? ? ? ? ? ? ? ? ? ? ?]. lia. Qed.

Lemma lines_after_app (b : i2c_bus_cfg_t) (st : lines) (tr1 tr2 : trace) :
  lines_after b st (tr1 ++ tr2) = lines_after b (lines_after b st tr1) tr2.
Proof. unfold lines_after. apply fold_left_app. Qed.

Lemma signals_app (b : i2c_bus_cfg_t) (tr1 tr2 : trace) :
  forall st, signals b st (tr1 ++ tr2)
             = signals b st tr1 ++ signals b (lines_after b st tr1) tr2.
Proof.
  induction tr1 as [|e tr1 IH]; intros st; simpl; [reflexivity|].
  rewrite IH, <- app_assoc. reflexivity.
Qed.

Lemma count_signal_app (want : signal -> bool) (s1 s2 : list signal) :
  count_signal want (s1 ++ s2)
  = (count_signal want s1 + count_signal want s2)%nat.
Proof. unfold count_signal. now rewrite List.filter_app, length_app. Qed.

(** Unfolding of the state-passing combinators and of the line driver. *)
Ltac run :=
  unfold i2c_master_recv_ack, i2c_master_send_ack, i2c_master_send_nack,
    i2c_master_send_bit, i2c_master_recv_bit, i2c_master_send_start,
    i2c_master_send_stop, guard, i2c_scl_wait, i2c_sda_get, i2c_sda_set,
    i2c_scl_set, DELAY_US, emit, st_bind, st_ret;
  simpl; rewrite <- ?app_assoc; simpl.

Section BitSpecs.

Context {hdr : i2c_header}.
Variable peer : peer_t.
Variable dev : i2c_dev_t.
Hypothesis timeout_fails : I2C_ERROR_TIMEOUT <> I2C_OK.

(** The three ways out of [i2c_master_send_bit]. *)
Lemma send_bit_timeout (bit : bool) (tr : trace) :
  scl_released peer (bus dev)
    (tr ++ [SdaSet (bus dev) bit; SclSet (bus dev) true]) = false ->
  i2c_master_send_bit peer dev bit tr
  = (I2C_ERROR_TIMEOUT,
     tr ++ [SdaSet (bus dev) bit; SclSet (bus dev) true;
            SclWait (bus dev) false]).
Proof.
  intros H. run. rewrite H.
  destruct (Z.eqb_spec I2C_ERROR_TIMEOUT I2C_OK); [contradiction|reflexivity].
Qed.

Lemma send_bit_lost (tr : trace) :
  scl_released peer (bus dev)
    (tr ++ [SdaSet (bus dev) true; SclSet (bus dev) true]) = true ->
  sda_reads peer (bus dev)
    (tr ++ [SdaSet (bus dev) true; SclSet (bus dev) true;
            SclWait (bus dev) true]) = false ->
  i2c_master_send_bit peer dev true tr
  = (0, tr ++ [SdaSet (bus dev) true; SclSet (bus dev) true;
               SclWait (bus dev) true; SdaGet (bus dev) false]).
Proof.
  intros H1 H2. run. rewrite H1, Z.eqb_refl. simpl.
  rewrite <- ?app_assoc. simpl. rewrite H2. reflexivity.
Qed.

Lemma send_bit_done (bit : bool) (tr : trace) :
  scl_released peer (bus dev)
    (tr ++ [SdaSet (bus dev) bit; SclSet (bus dev) true]) = true ->
  (bit = true ->
   sda_reads peer (bus dev)
     (tr ++ [SdaSet (bus dev) true; SclSet (bus dev) true;
             SclWait (bus dev) true]) = true) ->
  i2c_master_send_bit peer dev bit tr
  = (1, tr ++ [SdaSet (bus dev) bit; SclSet (bus dev) true;
               SclWait (bus dev) true]
           ++ (if bit then [SdaGet (bus dev) true] else [])
           ++ [DelayUs 4; SclSet (bus dev) false]).
Proof.
  intros H1 H2. run. rewrite H1, Z.eqb_refl. simpl.
  destruct bit; simpl; rewrite <- ?app_assoc; simpl; [|reflexivity].
  rewrite (H2 eq_refl). simpl. rewrite <- ?app_assoc. reflexivity.
Qed.

(** The two ways out of [i2c_master_recv_bit]. *)
Lemma recv_bit_timeout (tr : trace) :
  scl_released peer (bus dev)
    (tr ++ [SdaSet (bus dev) true; DelayUs 4; SclSet (bus dev) true])
  = false ->
  i2c_master_recv_bit peer dev tr
  = (I2C_ERROR_TIMEOUT,
     tr ++ [SdaSet (bus dev) true; DelayUs 4; SclSet (bus dev) true;
            SclWait (bus dev) false]).
Proof.
  intros H. run. rewrite H.
  destruct (Z.eqb_spec I2C_ERROR_TIMEOUT I2C_OK); [contradiction|reflexivity].
Qed.

Lemma recv_bit_done (tr : trace) :
  scl_released peer (bus dev)
    (tr ++ [SdaSet (bus dev) true; DelayUs 4; SclSet (bus dev) true])
  = true ->
  let sampled :=
    sda_reads peer (bus dev)
      (tr ++ [SdaSet (bus dev) true; DelayUs 4; SclSet (bus dev) true;
              SclWait (bus dev) true]) in
  i2c_master_recv_bit peer dev tr
  = (b2z sampled,
     tr ++ [SdaSet (bus dev) true; DelayUs 4; SclSet (bus dev) true;
            SclWait (bus dev) true; SdaGet (bus dev) sampled;
            DelayUs 4; SclSet (bus dev) false]).
Proof.
  intros H. run. rewrite H, Z.eqb_refl. simpl.
  rewrite <- ?app_assoc. reflexivity.
Qed.

End BitSpecs.

(** ** Bit transfer and the clock line *)

(** C10: [i2c_master_send_bit] and [i2c_master_recv_bit] put the clock line
    back low only when they run to their end.  When the clock wait times
    out, and when [i2c_master_send_bit] sends a 1 and reads the data line
    low, they return with the clock line still released (high); otherwise
    they return with the clock line driven low. *)
Theorem bit_transfer_clock_after
  (hdr : i2c_header) (peer : peer_t) (dev : i2c_dev_t) (st : lines)
  (tr : trace) :
  header_ok hdr ->
  let b := bus dev in
  let clock_after (r : Z * trace) := scl_out (lines_after b st (snd r)) in
  (forall bit,
     scl_released peer b (tr ++ [SdaSet b bit; SclSet b true]) = false ->
     fst (i2c_master_send_bit peer dev bit tr) = I2C_ERROR_TIMEOUT /\
     clock_after (i2c_master_send_bit peer dev bit tr) = true) /\
  (scl_released peer b (tr ++ [SdaSet b true; SclSet b true]) = true ->
   sda_reads peer b
     (tr ++ [SdaSet b true; SclSet b true; SclWait b true]) = false ->
   fst (i2c_master_send_bit peer dev true tr) = 0 /\
   clock_after (i2c_master_send_bit peer dev true tr) = true) /\
  (forall bit,
     scl_released peer b (tr ++ [SdaSet b bit; SclSet b true]) = true ->
     (bit = true ->
      sda_reads peer b
        (tr ++ [SdaSet b true; SclSet b true; SclWait b true]) = true) ->
     fst (i2c_master_send_bit peer dev bit tr) = 1 /\
     clock_after (i2c_master_send_bit peer dev bit tr) = false) /\
  (scl_released peer b
     (tr ++ [SdaSet b true; DelayUs 4; SclSet b true]) = false ->
   fst (i2c_master_recv_bit peer dev tr) = I2C_ERROR_TIMEOUT /\
   clock_after (i2c_master_recv_bit peer dev tr) = true) /\
  (scl_released peer b
     (tr ++ [SdaSet b true; DelayUs 4; SclSet b true]) = true ->
   fst (i2c_master_recv_bit peer dev tr)
   = b2z (sda_reads peer b
            (tr ++ [SdaSet b true; DelayUs 4; SclSet b true;
                    SclWait b true])) /\
   clock_after (i2c_master_recv_bit peer dev tr) = false).
Proof.
  intros Hok b clock_after. subst clock_after.
  pose proof (timeout_not_ok hdr Hok) as Hne.
  assert (Hb : bus_eqb b b = true) by apply bus_eqb_refl.
  repeat split; intros.
  all: first
    [ rewrite send_bit_timeout by assumption
    | rewrite send_bit_lost by assumption
    | rewrite send_bit_done by assumption
    | rewrite recv_bit_timeout by assumption
    | rewrite recv_bit_done by assumption ];
    try reflexivity.
  all: cbn [snd]; rewrite ?lines_after_app; unfold lines_after; fold b.
  all: try (destruct bit); simpl; rewrite ?Hb; reflexivity.
Qed.

Lemma bit_transfer_clock_after_witness :
  fst (i2c_master_send_bit (hdr := header_with 0) stuck_clock dev0 true [])
  = -2 /\
  scl_out (lines_after (bus dev0) released
             (snd (i2c_master_send_bit (hdr := header_with 0) stuck_clock
                     dev0 true [])))
  = true.
Proof.
  destruct (bit_transfer_clock_after (header_with 0) stuck_clock dev0
              released [] (header_with_ok 0 ltac:(lia))) as [H _].
  apply (H true). reflexivity.
Defined.

(** ** Start and stop conditions *)

Lemma send_start_run
  (hdr : i2c_header) (peer : peer_t) (dev : i2c_dev_t) (tr : trace) :
  i2c_master_send_start peer dev tr
  = (if sda_reads peer (bus dev) tr
     then (I2C_OK,
           tr ++ [SdaGet (bus dev) true; SdaSet (bus dev) false;
                  DelayUs 4; SclSet (bus dev) false])
     else (I2C_ERROR_CONFLICT, tr ++ [SdaGet (bus dev) false])).
Proof.
  run. destruct (sda_reads peer (bus dev) tr); simpl;
    rewrite <- ?app_assoc; reflexivity.
Qed.

Lemma send_stop_run
  (hdr : i2c_header) (peer : peer_t) (dev : i2c_dev_t) (tr : trace) :
  i2c_master_send_stop peer dev tr
  = (I2C_OK,
     tr ++ [SdaSet (bus dev) false; DelayUs 4; SclSet (bus dev) true;
            SclWait (bus dev)
              (scl_released peer (bus dev)
                 (tr ++ [SdaSet (bus dev) false; DelayUs 4;
                         SclSet (bus dev) true]));
            DelayUs 4; SdaSet (bus dev) true]).
Proof. run. reflexivity. Qed.

Example start_on_busy_bus :
  i2c_master_send_start (hdr := header_with 0) busy_bus dev0 []
  = (-1, [SdaGet (bus dev0) false]).
Proof. reflexivity. Qed.

Example start_on_idle_bus :
  signals (bus dev0) released
    (snd (i2c_master_send_start (hdr := header_with 0) idle_bus dev0 []))
  = [START].
Proof. reflexivity. Qed.

Example stop_after_start :
  signals (bus dev0) released
    (after_stop (hdr := header_with 0) idle_bus dev0
       (snd (i2c_master_send_start (hdr := header_with 0) idle_bus dev0 [])))
  = [START; BIT false; STOP].
Proof. reflexivity. Qed.

(** C5: [i2c_master_send_start] reads the data line first.  If it reads
    low, the result is the bus-conflict error and nothing else happened: no
    wait, no delay, no line driven.  Otherwise the data line is driven low,
    then the clock line, and the result is success. *)
Theorem send_start_conflict_or_start
  (hdr : i2c_header) (peer : peer_t) (dev : i2c_dev_t) (st : lines)
  (tr : trace) :
  let b := bus dev in
  i2c_master_send_start peer dev tr
  = (if sda_reads peer b tr
     then (I2C_OK,
           tr ++ [SdaGet b true; SdaSet b false; DelayUs 4; SclSet b false])
     else (I2C_ERROR_CONFLICT, tr ++ [SdaGet b false])) /\
  lines_after b st (snd (i2c_master_send_start peer dev tr))
  = (if sda_reads peer b tr
     then {| scl_out := false; sda_out := false |}
     else lines_after b st tr).
Proof.
  intros b. subst b. split; [apply send_start_run|].
  rewrite send_start_run.
  destruct (sda_reads peer (bus dev) tr); cbn [snd];
    rewrite lines_after_app; unfold lines_after; simpl;
    rewrite ?bus_eqb_refl; reflexivity.
Qed.

(** C6, as the code has it: when the clock line stays low beyond the
    bounded wait, the two bit transfers return the timeout status.
    [i2c_master_send_stop] makes the same bounded wait, drops its result
    and returns success; [i2c_master_send_start] never waits for the clock
    and returns success or the bus-conflict error.  All four return. *)
Theorem clock_held_low
  (hdr : i2c_header) (peer : peer_t) (dev : i2c_dev_t) (tr : trace) :
  header_ok hdr ->
  (forall b t, scl_released peer b t = false) ->
  let b := bus dev in
  (forall bit,
     i2c_master_send_bit peer dev bit tr
     = (I2C_ERROR_TIMEOUT,
        tr ++ [SdaSet b bit; SclSet b true; SclWait b false])) /\
  i2c_master_recv_bit peer dev tr
  = (I2C_ERROR_TIMEOUT,
     tr ++ [SdaSet b true; DelayUs 4; SclSet b true; SclWait b false]) /\
  i2c_master_send_stop peer dev tr
  = (I2C_OK,
     tr ++ [SdaSet b false; DelayUs 4; SclSet b true; SclWait b false;
            DelayUs 4; SdaSet b true]) /\
  i2c_master_send_start peer dev tr
  = (if sda_reads peer b tr
     then (I2C_OK,
           tr ++ [SdaGet b true; SdaSet b false; DelayUs 4; SclSet b false])
     else (I2C_ERROR_CONFLICT, tr ++ [SdaGet b false])).
Proof.
  intros Hok Hlow b. subst b.
  pose proof (timeout_not_ok hdr Hok) as Hne.
  repeat split.
  - intros bit. apply send_bit_timeout; [assumption|apply Hlow].
  - apply recv_bit_timeout; [assumption|apply Hlow].
  - rewrite send_stop_run, Hlow. reflexivity.
  - apply send_start_run.
Qed.

Lemma clock_held_low_witness :
  i2c_master_recv_bit (hdr := header_with 0) stuck_clock dev0 []
  = (-2, [SdaSet (bus dev0) true; DelayUs 4; SclSet (bus dev0) true;
          SclWait (bus dev0) false]).
Proof.
  destruct (clock_held_low (header_with 0) stuck_clock dev0 []
              (header_with_ok 0 ltac:(lia)) (fun _ _ => eq_refl))
    as (_ & H & _).
  exact H.
Defined.

(** C6 as stated fails: with the clock line held low, the stop condition
    and the start condition still report success. *)
Lemma stop_and_start_hide_stuck_clock :
  (forall b t, scl_released stuck_clock b t = false) /\
  fst (i2c_master_send_stop (hdr := header_with 0) stuck_clock dev0 [])
  <> @I2C_ERROR_TIMEOUT (header_with 0) /\
  fst (i2c_master_send_start (hdr := header_with 0) stuck_clock dev0 [])
  <> @I2C_ERROR_TIMEOUT (header_with 0).
Proof. repeat split; vm_compute; discriminate. Qed.

(** ** Byte transfer *)

Section Sequences.

Context {hdr : i2c_header}.
Variable peer : peer_t.
Variable dev : i2c_dev_t.

Lemma guard_run {A} (m : M Z) (fail : Z -> A) (k : Z -> M A) (tr : trace) :
  guard m fail k tr
  = if fst (m tr) =? I2C_OK then k (fst (m tr)) (snd (m tr))
    else (fail (fst (m tr)), snd (m tr)).
Proof.
  unfold guard, st_bind, st_ret. destruct (m tr) as [ret tr']. simpl.
  destruct (ret =? I2C_OK); reflexivity.
Qed.

Lemma after_recv_bits_shift (k : nat) (tr : trace) :
  after_recv_bits peer dev k (snd (i2c_master_recv_bit peer dev tr))
  = after_recv_bits peer dev (S k) tr.
Proof.
  unfold after_recv_bits. symmetry.
  exact (Nat.iter_succ_r k
           (fun t => snd (i2c_master_recv_bit peer dev t)) tr).
Qed.

Lemma send_byte_loop_all_ok (n : nat) :
  forall data tr,
    (forall j bit,
       loop_bits n data !! j = Some bit ->
       fst (i2c_master_send_bit peer dev bit
              (after_send_bits peer dev (take j (loop_bits n data)) tr))
       = I2C_OK) ->
    send_byte_loop peer dev n data tr
    = i2c_master_recv_ack peer dev
        (after_send_bits peer dev (loop_bits n data) tr).
Proof.
  induction n as [|n IH]; intros data tr Hok; [reflexivity|].
  cbn [send_byte_loop loop_bits]. rewrite guard_run.
  pose proof (Hok 0%nat _ eq_refl) as H0.
  cbn [loop_bits firstn after_send_bits fold_left] in H0.
  rewrite H0, Z.eqb_refl.
  rewrite IH; [reflexivity|].
  intros j bit Hj. exact (Hok (S j) bit Hj).
Qed.

Lemma recv_byte_loop_fails (n : nat) :
  forall k d out tr,
    (k < n)%nat ->
    (forall j, (j < k)%nat ->
       fst (i2c_master_recv_bit peer dev (after_recv_bits peer dev j tr))
       = I2C_OK) ->
    fst (i2c_master_recv_bit peer dev (after_recv_bits peer dev k tr))
    <> I2C_OK ->
    recv_byte_loop peer dev n d out tr
    = ((fst (i2c_master_recv_bit peer dev (after_recv_bits peer dev k tr)),
        out),
       after_recv_bits peer dev (S k) tr).
Proof.
  induction n as [|n IH]; intros k d out tr Hk Hbefore Hfail; [lia|].
  cbn [recv_byte_loop]. rewrite guard_run.
  destruct k as [|k].
  - change (after_recv_bits peer dev 0 tr) with tr in *.
    apply Z.eqb_neq in Hfail. rewrite Hfail. reflexivity.
  - pose proof (Hbefore 0%nat ltac:(lia)) as H0.
    change (after_recv_bits peer dev 0 tr) with tr in H0.
    rewrite H0, Z.eqb_refl.
    rewrite (IH k); rewrite ?after_recv_bits_shift; try reflexivity.
    + lia.
    + intros j Hj. rewrite after_recv_bits_shift. apply Hbefore. lia.
    + exact Hfail.
Qed.

(** Whatever is on the bus, the byte that [i2c_master_recv_byte] stores is
    made of copies of the success status: the loop goes on only when the
    received bit equals [I2C_OK]. *)
Lemma recv_byte_loop_stores (n : nat) :
  forall d out tr,
    snd (fst (recv_byte_loop peer dev n d out tr)) = out \/
    snd (fst (recv_byte_loop peer dev n d out tr)) = shifted_in n d.
Proof.
  induction n as [|n IH]; intros d out tr.
  - right. cbn [recv_byte_loop]. unfold st_bind, st_ret.
    now destruct (i2c_master_send_ack peer dev tr).
  - cbn [recv_byte_loop]. rewrite guard_run.
    destruct (Z.eqb_spec (fst (i2c_master_recv_bit peer dev tr)) I2C_OK)
      as [E|E]; [|now left].
    rewrite E.
    destruct (IH (uint8 (Z.lor (Z.shiftl d 1) I2C_OK)) out
                (snd (i2c_master_recv_bit peer dev tr))) as [H|H];
      [now left|right].
    rewrite H. unfold shifted_in. symmetry.
    exact (Nat.iter_succ_r n
             (fun d => uint8 (Z.lor (Z.shiftl d 1) I2C_OK)) d).
Qed.

(** A bit transfer that runs to its end returns 1: unless that is the
    success status, [i2c_master_send_byte] stops there. *)
Lemma send_byte_first_bit_only (data : Z) (tr : trace) :
  I2C_OK <> 1 ->
  fst (i2c_master_send_bit peer dev
         (to_bool (Z.land (Z.shiftr data 7) 1)) tr) = 1 ->
  i2c_master_send_byte peer dev data tr
  = i2c_master_send_bit peer dev (to_bool (Z.land (Z.shiftr data 7) 1)) tr.
Proof.
  intros Hne Hbit. unfold i2c_master_send_byte. cbn [send_byte_loop].
  rewrite guard_run.
  destruct (Z.eqb_spec
              (fst (i2c_master_send_bit peer dev
                      (to_bool (Z.land (Z.shiftr data 7) 1)) tr)) I2C_OK)
    as [E|E]; [congruence|].
  now destruct (i2c_master_send_bit peer dev _ tr).
Qed.

End Sequences.

Lemma byte_cases (P : Z -> Prop) `{forall d, Decision (P d)} :
  forallb (fun d => bool_decide (P d)) (map Z.of_nat (seq 0 256)) = true ->
  forall d, 0 <= d < 256 -> P d.
Proof.
  intros Hall d Hd. rewrite forallb_forall in Hall.
  apply (bool_decide_eq_true_1 (P d)).
  apply (Hall d).
  rewrite <- (Z2Nat.id d) by lia. apply in_map, in_seq. lia.
Qed.

Lemma loop_bits_msb (data : Z) :
  0 <= data < 256 -> loop_bits 8 data = msb_bits data.
Proof.
  revert data. apply (byte_cases (fun d => loop_bits 8 d = msb_bits d)).
  vm_compute. reflexivity.
Qed.

Lemma of_bits_msb (data : Z) :
  0 <= data < 256 -> of_bits (msb_bits data) = data.
Proof.
  revert data. apply (byte_cases (fun d => of_bits (msb_bits d) = d)).
  vm_compute. reflexivity.
Qed.

(** C9: if one of the eight bit receptions of [i2c_master_recv_byte] fails,
    the first that does ends the call: its status is returned and the
    output location keeps its content. *)
Theorem recv_byte_bit_failure
  (hdr : i2c_header) (peer : peer_t) (dev : i2c_dev_t) (out : Z)
  (tr : trace) (k : nat) :
  (k < 8)%nat ->
  (forall j, (j < k)%nat ->
     fst (i2c_master_recv_bit peer dev (after_recv_bits peer dev j tr))
     = I2C_OK) ->
  fst (i2c_master_recv_bit peer dev (after_recv_bits peer dev k tr))
  <> I2C_OK ->
  i2c_master_recv_byte peer dev out tr
  = ((fst (i2c_master_recv_bit peer dev (after_recv_bits peer dev k tr)),
      out),
     after_recv_bits peer dev (S k) tr).
Proof.
  intros Hk Hbefore Hfail. unfold i2c_master_recv_byte.
  apply recv_byte_loop_fails.
  - exact Hk.
  - exact Hbefore.
  - exact Hfail.
Qed.

Lemma recv_byte_bit_failure_witness :
  fst (i2c_master_recv_byte (hdr := header_with 1) (stretch_after 3) dev0
         0x5A [])
  = (-2, 0x5A).
Proof.
  rewrite (recv_byte_bit_failure (header_with 1) (stretch_after 3) dev0
             0x5A [] 3).
  - vm_compute. reflexivity.
  - lia.
  - intros j Hj.
    do 3 (destruct j as [|j]; [vm_compute; reflexivity|]). lia.
  - vm_compute. discriminate.
Defined.

(** ** Address byte *)

Lemma addr_byte_range (i : Z) (read : bool) :
  0 <= i < 128 ->
  uint8 (Z.lor (Z.shiftl i 1) (b2z read)) = Z.lor (Z.shiftl i 1) (b2z read)
  /\ 0 <= Z.lor (Z.shiftl i 1) (b2z read) < 256.
Proof.
  intros Hi.
  assert (H : forall r, 0 <= r < 2 -> forall i, 0 <= i < 256 -> i < 128 ->
                uint8 (Z.lor (Z.shiftl i 1) r) = Z.lor (Z.shiftl i 1) r /\
                0 <= Z.lor (Z.shiftl i 1) r < 256).
  { intros r Hr.
    assert (Hcases : r = 0 \/ r = 1) by lia.
    destruct Hcases as [-> | ->].
    - apply (byte_cases (fun i => i < 128 ->
               uint8 (Z.lor (Z.shiftl i 1) 0) = Z.lor (Z.shiftl i 1) 0 /\
               0 <= Z.lor (Z.shiftl i 1) 0 < 256)).
      vm_compute. reflexivity.
    - apply (byte_cases (fun i => i < 128 ->
               uint8 (Z.lor (Z.shiftl i 1) 1) = Z.lor (Z.shiftl i 1) 1 /\
               0 <= Z.lor (Z.shiftl i 1) 1 < 256)).
      vm_compute. reflexivity. }
  apply H; destruct read; simpl b2z; lia.
Qed.

(** ** Transactions *)

Section Flags.

Context {hdr : i2c_header}.
Hypothesis Hhdr : header_ok hdr.

Lemma land_lor_l (a b c : Z) :
  Z.land a c <> 0 -> to_bool (Z.land (Z.lor a b) c) = true.
Proof.
  intros H. unfold to_bool. rewrite Z.land_lor_distr_l.
  destruct (Z.eqb_spec (Z.lor (Z.land a c) (Z.land b c)) 0) as [E|]; auto.
  apply Z.lor_eq_0_iff in E. tauto.
Qed.

Lemma land_lor_r (a b c : Z) :
  Z.land b c <> 0 -> to_bool (Z.land (Z.lor a b) c) = true.
Proof. rewrite Z.lor_comm. apply land_lor_l. Qed.

Lemma land_lor_none (a b c : Z) :
  Z.land a c = 0 -> Z.land b c = 0 -> to_bool (Z.land (Z.lor a b) c) = false.
Proof.
  intros Ha Hb. unfold to_bool. now rewrite Z.land_lor_distr_l, Ha, Hb.
Qed.

Lemma write_stop_writes :
  to_bool (Z.land (Z.lor I2C_WRITE I2C_STOP) I2C_WRITE) = true.
Proof. apply land_lor_l. rewrite Z.land_diag. apply Hhdr. Qed.

Lemma write_stop_not_read :
  to_bool (Z.land (Z.lor I2C_WRITE I2C_STOP) I2C_READ) = false.
Proof.
  apply land_lor_none.
  - rewrite Z.land_comm. apply Hhdr.
  - apply Hhdr.
Qed.

Lemma sws_start :
  to_bool (Z.land (Z.lor I2C_START (Z.lor I2C_WRITE I2C_STOP)) I2C_START)
  = true.
Proof. apply land_lor_l. rewrite Z.land_diag. apply Hhdr. Qed.

Lemma sws_not_read :
  to_bool (Z.land (Z.lor I2C_START (Z.lor I2C_WRITE I2C_STOP)) I2C_READ)
  = false.
Proof.
  apply land_lor_none; [apply Hhdr|].
  generalize write_stop_not_read. unfold to_bool.
  destruct (Z.eqb_spec (Z.land (Z.lor I2C_WRITE I2C_STOP) I2C_READ) 0);
    [auto|discriminate].
Qed.

End Flags.

Section Transfer.

Context {hdr : i2c_header}.
Variable peer : peer_t.
Variable dev : i2c_dev_t.

(** In the write direction the data loop never stores into the buffer. *)
Lemma transfer_loop_write_buffer (action : Z) (buffer : list Z) (n : nat) :
  to_bool (Z.land action I2C_WRITE) = true ->
  forall i tr,
    snd (fst (transfer_loop peer dev action n i buffer tr)) = buffer.
Proof.
  intros Hw. induction n as [|n IH]; intros i tr; cbn [transfer_loop].
  - destruct (to_bool (Z.land action I2C_STOP)); [|reflexivity].
    rewrite guard_run. now destruct (_ =? _).
  - rewrite Hw, guard_run. destruct (_ =? _); [apply IH|reflexivity].
Qed.

Lemma transfer_write_buffer (action : Z) (buffer : list Z) (size : Z)
  (tr : trace) :
  to_bool (Z.land action I2C_WRITE) = true ->
  snd (fst (i2c_master_transfer peer dev buffer size action tr)) = buffer.
Proof.
  intros Hw. unfold i2c_master_transfer.
  destruct (to_bool (Z.land action I2C_START)).
  - rewrite guard_run. destruct (_ =? _); [|reflexivity].
    rewrite guard_run. destruct (_ =? _); [|reflexivity].
    now apply transfer_loop_write_buffer.
  - now apply transfer_loop_write_buffer.
Qed.

End Transfer.

(** C4: the second transfer of [i2c_master_addr_read] is made with the
    flags WRITE and STOP, which select the write direction and not the read
    direction; so the call never stores into the buffer, and it is the same
    run as [i2c_master_addr_write] on the same arguments. *)
Theorem addr_read_is_addr_write
  (hdr : i2c_header) (peer : peer_t) (dev : i2c_dev_t) (addr : list Z)
  (buffer : list Z) (size : Z) (tr : trace) :
  header_ok hdr ->
  i2c_master_addr_read peer dev addr buffer size tr
  = i2c_master_addr_write peer dev addr buffer size tr /\
  i2c_master_addr_read peer dev addr buffer size tr
  = (let r := i2c_master_transfer peer dev addr (addr_bytes (slave dev))
                (Z.lor I2C_START I2C_WRITE) tr in
     if fst (fst r) <? 0 then ((fst (fst r), buffer), snd r)
     else i2c_master_transfer peer dev buffer size
            (Z.lor I2C_WRITE I2C_STOP) (snd r)) /\
  to_bool (Z.land (Z.lor I2C_WRITE I2C_STOP) I2C_WRITE) = true /\
  to_bool (Z.land (Z.lor I2C_WRITE I2C_STOP) I2C_READ) = false /\
  snd (fst (i2c_master_addr_read peer dev addr buffer size tr)) = buffer.
Proof.
  intros Hhdr.
  assert (E : i2c_master_addr_read peer dev addr buffer size tr
              = (let r := i2c_master_transfer peer dev addr
                            (addr_bytes (slave dev))
                            (Z.lor I2C_START I2C_WRITE) tr in
                 if fst (fst r) <? 0 then ((fst (fst r), buffer), snd r)
                 else i2c_master_transfer peer dev buffer size
                        (Z.lor I2C_WRITE I2C_STOP) (snd r))).
  { unfold i2c_master_addr_read, st_bind, st_ret.
    destruct (i2c_master_transfer peer dev addr _ _ tr) as [[ret a] tr1].
    cbn [fst snd]. now destruct (ret <? 0). }
  split; [reflexivity|]. split; [exact E|].
  split; [now apply write_stop_writes|].
  split; [now apply write_stop_not_read|].
  rewrite E. cbv zeta.
  destruct (_ <? 0); [reflexivity|].
  apply transfer_write_buffer. now apply write_stop_writes.
Qed.

Lemma addr_read_is_addr_write_witness :
  i2c_master_addr_read (hdr := header_with 1) idle_bus dev0 [0x10]
    [0xAA; 0xBB] 2 []
  = i2c_master_addr_write (hdr := header_with 1) idle_bus dev0 [0x10]
      [0xAA; 0xBB] 2 [] /\
  snd (fst (i2c_master_addr_read (hdr := header_with 1) idle_bus dev0 [0x10]
              [0xAA; 0xBB] 2 []))
  = [0xAA; 0xBB].
Proof.
  destruct (addr_read_is_addr_write (header_with 1) idle_bus dev0 [0x10]
              [0xAA; 0xBB] 2 [] (header_with_ok 1 ltac:(lia)))
    as (H1 & _ & _ & _ & H2).
  split; [exact H1|exact H2].
Defined.

(** *** The phases of a transfer *)

Section Phases.

Context {hdr : i2c_header}.
Variable peer : peer_t.
Variable dev : i2c_dev_t.

Lemma run_all_cons_ok (m : M Z) (ms : list (M Z)) (tr : trace) :
  all_ok (fst (run_all (m :: ms) tr)) ->
  fst (m tr) = I2C_OK /\ all_ok (fst (run_all ms (snd (m tr)))).
Proof. cbn [run_all fst]. intros H. inversion H; subst. auto. Qed.

Lemma buf_get_insert_ne (buffer : list Z) (i j : nat) (x : Z) :
  i <> j -> buf_get (<[i := x]> buffer) j = buf_get buffer j.
Proof. intros H. unfold buf_get. now rewrite list_lookup_insert_ne. Qed.

Lemma byte_phase_write (action : Z) (buffer : list Z) (i : nat) (tr : trace) :
  to_bool (Z.land action I2C_WRITE) = true ->
  byte_phase peer dev action buffer i tr
  = i2c_master_send_byte peer dev (buf_get buffer i) tr.
Proof. intros H. unfold byte_phase. now rewrite H. Qed.

Lemma byte_phase_read (action : Z) (buffer : list Z) (i : nat) (tr : trace) :
  to_bool (Z.land action I2C_WRITE) = false ->
  byte_phase peer dev action buffer i tr
  = (fst (fst (i2c_master_recv_byte peer dev (buf_get buffer i) tr)),
     snd (i2c_master_recv_byte peer dev (buf_get buffer i) tr)).
Proof. intros H. unfold byte_phase. now rewrite H. Qed.

Lemma transfer_loop_all_ok (action : Z) (buffer0 : list Z) (n : nat) :
  forall i buffer tr,
    (forall j, (i <= j)%nat -> buf_get buffer j = buf_get buffer0 j) ->
    all_ok (fst (run_all (map (byte_phase peer dev action buffer0) (seq i n)
                          ++ stop_phase peer dev action) tr)) ->
    fst (fst (transfer_loop peer dev action n i buffer tr))
    = Z.of_nat (i + n) /\
    snd (transfer_loop peer dev action n i buffer tr)
    = snd (run_all (map (byte_phase peer dev action buffer0) (seq i n)
                    ++ stop_phase peer dev action) tr).
Proof.
  induction n as [|n IH]; intros i buffer tr Hbuf Hok.
  - cbn [seq map app transfer_loop] in *. rewrite Nat.add_0_r.
    unfold stop_phase in *.
    destruct (to_bool (Z.land action I2C_STOP)); [|split; reflexivity].
    apply run_all_cons_ok in Hok as [Hstop _].
    rewrite guard_run, Hstop, Z.eqb_refl. split; reflexivity.
  - cbn [seq map app transfer_loop] in *.
    apply run_all_cons_ok in Hok as [Hbyte Hrest].
    cbn [run_all snd].
    destruct (to_bool (Z.land action I2C_WRITE)) eqn:Hw.
    + rewrite byte_phase_write in Hbyte, Hrest |- * by assumption.
      rewrite <- (Hbuf i) in * by lia.
      rewrite guard_run, Hbyte, Z.eqb_refl.
      destruct (IH (S i) buffer _ ltac:(intros; apply Hbuf; lia) Hrest)
        as [E1 E2].
      rewrite E1, E2. split; [f_equal; lia|reflexivity].
    + rewrite byte_phase_read in Hbyte, Hrest |- * by assumption.
      rewrite <- (Hbuf i) in * by lia.
      unfold st_bind, st_ret. cbn [fst snd] in Hbyte, Hrest |- *.
      destruct (i2c_master_recv_byte peer dev (buf_get buffer i) tr)
        as [[ret out] tr1] eqn:Er.
      cbn [fst snd] in Hbyte, Hrest |- *. subst ret. rewrite Z.eqb_refl.
      destruct (IH (S i) (<[i := out]> buffer) tr1) as [E1 E2].
      * intros j Hj. rewrite buf_get_insert_ne by lia. apply Hbuf. lia.
      * exact Hrest.
      * rewrite E1, E2. split; [f_equal; lia|reflexivity].
Qed.

(** The last statement of [i2c_master_transfer], [return i], is reached
    when every phase has returned the success status; the counter is then
    the [uint8_t] that [size] was converted to. *)
Lemma transfer_all_ok (buffer : list Z) (size action : Z) (tr : trace) :
  all_ok (fst (run_all (phases peer dev buffer size action) tr)) ->
  fst (fst (i2c_master_transfer peer dev buffer size action tr))
  = uint8 size /\
  snd (i2c_master_transfer peer dev buffer size action tr)
  = snd (run_all (phases peer dev buffer size action) tr).
Proof.
  intros Hok. unfold i2c_master_transfer, phases, start_phase in *.
  assert (Hsize : 0 <= uint8 size) by (apply Z.mod_pos_bound; lia).
  destruct (to_bool (Z.land action I2C_START)).
  - cbn [app] in Hok |- *.
    apply run_all_cons_ok in Hok as [Hstart Hok].
    apply run_all_cons_ok in Hok as [Haddr Hok].
    rewrite guard_run, Hstart, Z.eqb_refl.
    rewrite guard_run, Haddr, Z.eqb_refl.
    destruct (transfer_loop_all_ok action buffer (Z.to_nat (uint8 size)) 0
                buffer _ ltac:(reflexivity) Hok) as [E1 E2].
    rewrite E1, E2. split; [lia|reflexivity].
  - cbn [app] in Hok |- *.
    destruct (transfer_loop_all_ok action buffer (Z.to_nat (uint8 size)) 0
                buffer _ ltac:(reflexivity) Hok) as [E1 E2].
    rewrite E1, E2. split; [lia|reflexivity].
Qed.

End Phases.

(** *** What the bus sees of a transfer *)

Section Wire.

Context {hdr : i2c_header}.
Variable peer : peer_t.
Variable dev : i2c_dev_t.
Hypothesis timeout_fails : I2C_ERROR_TIMEOUT <> I2C_OK.

Lemma send_bit_false_ok (tr : trace) :
  fst (i2c_master_send_bit peer dev false tr) = I2C_OK -> I2C_OK = 1.
Proof.
  destruct (scl_released peer (bus dev)
              (tr ++ [SdaSet (bus dev) false; SclSet (bus dev) true]))
    eqn:Hr.
  - rewrite send_bit_done by (assumption || discriminate).
    cbn [fst]. auto.
  - rewrite send_bit_timeout by assumption. cbn [fst]. contradiction.
Qed.

Lemma send_byte_loop_ok_inv (n : nat) (data : Z) (tr : trace) :
  fst (send_byte_loop peer dev (S n) data tr) = I2C_OK ->
  fst (i2c_master_send_bit peer dev
         (to_bool (Z.land (Z.shiftr data 7) 1)) tr) = I2C_OK /\
  fst (send_byte_loop peer dev n (uint8 (Z.shiftl data 1))
         (snd (i2c_master_send_bit peer dev
                 (to_bool (Z.land (Z.shiftr data 7) 1)) tr))) = I2C_OK.
Proof.
  cbn [send_byte_loop]. rewrite guard_run.
  destruct (Z.eqb_spec
              (fst (i2c_master_send_bit peer dev
                      (to_bool (Z.land (Z.shiftr data 7) 1)) tr)) I2C_OK)
    as [E|E]; [auto|]. cbn [fst]. contradiction.
Qed.

Lemma send_byte_loop_step (n : nat) (data : Z) (tr : trace) :
  fst (i2c_master_send_bit peer dev
         (to_bool (Z.land (Z.shiftr data 7) 1)) tr) = I2C_OK ->
  send_byte_loop peer dev (S n) data tr
  = send_byte_loop peer dev n (uint8 (Z.shiftl data 1))
      (snd (i2c_master_send_bit peer dev
              (to_bool (Z.land (Z.shiftr data 7) 1)) tr)).
Proof.
  intros H. cbn [send_byte_loop]. now rewrite guard_run, H, Z.eqb_refl.
Qed.

Lemma send_byte_loop_zero_bit (n : nat) :
  forall data tr,
    fst (send_byte_loop peer dev n data tr) = I2C_OK ->
    In false (loop_bits n data) -> I2C_OK = 1.
Proof.
  induction n as [|n IH]; intros data tr Hok Hin; [destruct Hin|].
  apply send_byte_loop_ok_inv in Hok as [Hbit Hrest].
  cbn [loop_bits] in Hin. destruct Hin as [Hin|Hin].
  - rewrite Hin in Hbit. now apply send_bit_false_ok in Hbit.
  - exact (IH _ _ Hrest Hin).
Qed.

Lemma send_start_signals (tr : trace) :
  I2C_ERROR_CONFLICT <> I2C_OK ->
  lines_after (bus dev) released tr = released ->
  fst (i2c_master_send_start peer dev tr) = I2C_OK ->
  starts_in dev (snd (i2c_master_send_start peer dev tr))
  = S (starts_in dev tr) /\
  stops_in dev (snd (i2c_master_send_start peer dev tr)) = stops_in dev tr /\
  clock_low dev (snd (i2c_master_send_start peer dev tr)).
Proof.
  intros Hc Hidle Hok.
  assert (Hb : bus_eqb (bus dev) (bus dev) = true) by apply bus_eqb_refl.
  rewrite send_start_run in Hok |- *.
  destruct (sda_reads peer (bus dev) tr); cbn [fst snd] in Hok |- *;
    [|contradiction].
  unfold starts_in, stops_in, clock_low.
  rewrite signals_app, !count_signal_app, lines_after_app, Hidle.
  unfold lines_after. simpl. rewrite ?Hb. simpl.
  repeat split; unfold count_signal; simpl; lia.
Qed.

End Wire.

Section WriteTransfer.

Context {hdr : i2c_header}.
Variable peer : peer_t.
Variable dev : i2c_dev_t.
Hypothesis timeout_fails : I2C_ERROR_TIMEOUT <> I2C_OK.

Lemma addr_write_zero_bit (i : Z) :
  In false (loop_bits 8 (uint8 (Z.lor (Z.shiftl i 1) (b2z false)))).
Proof.
  rewrite loop_bits_msb by (unfold uint8; apply Z.mod_pos_bound; lia).
  unfold msb_bits. cbn [map]. do 7 right. left.
  unfold uint8. change 256 with (2 ^ 8).
  rewrite Z.mod_pow2_bits_low by lia.
  rewrite Z.lor_spec, Z.shiftl_spec_low by lia. reflexivity.
Qed.

(** The address byte of a write ends with a 0 bit, and a 0 bit that was
    sent returns 1: the address phase of a write can only succeed when the
    success status is 1. *)
Lemma send_addr_write_ok (tr : trace) :
  fst (i2c_master_send_addr peer dev false tr) = I2C_OK -> I2C_OK = 1.
Proof.
  intros Haddr.
  apply (send_byte_loop_zero_bit peer dev timeout_fails 8 _ tr Haddr).
  apply addr_write_zero_bit.
Qed.

End WriteTransfer.

(** *** Bit transfers make no condition *)

Section BitsOnTheWire.

Context {hdr : i2c_header}.
Variable peer : peer_t.
Variable dev : i2c_dev_t.

Lemma no_condition_suffix (tr suffix : trace) :
  count_signal is_start
    (signals (bus dev) (lines_after (bus dev) released tr) suffix) = 0%nat ->
  count_signal is_stop
    (signals (bus dev) (lines_after (bus dev) released tr) suffix) = 0%nat ->
  starts_in dev (tr ++ suffix) = starts_in dev tr /\
  stops_in dev (tr ++ suffix) = stops_in dev tr.
Proof.
  intros H1 H2. unfold starts_in, stops_in.
  rewrite signals_app, !count_signal_app, H1, H2. lia.
Qed.

Ltac wire :=
  match goal with
  | Hlow : clock_low _ _ |- _ =>
      unfold clock_low in Hlow;
      apply no_condition_suffix;
      destruct (lines_after (bus dev) released _) as [c d];
      cbn [scl_out] in Hlow; subst c; destruct d;
      cbn; rewrite ?bus_eqb_refl; reflexivity
  end.

Lemma send_bit_no_condition (bit : bool) (tr : trace) :
  clock_low dev tr ->
  starts_in dev (snd (i2c_master_send_bit peer dev bit tr))
  = starts_in dev tr /\
  stops_in dev (snd (i2c_master_send_bit peer dev bit tr)) = stops_in dev tr.
Proof.
  intros Hlow. run.
  destruct (scl_released peer (bus dev) _);
    destruct (_ =? I2C_OK); destruct bit; cbn;
    try destruct (sda_reads peer (bus dev) _); cbn;
    rewrite <- ?app_assoc; cbn [app]; wire.
Qed.

Lemma recv_bit_no_condition (tr : trace) :
  clock_low dev tr ->
  starts_in dev (snd (i2c_master_recv_bit peer dev tr)) = starts_in dev tr /\
  stops_in dev (snd (i2c_master_recv_bit peer dev tr)) = stops_in dev tr.
Proof.
  intros Hlow. run.
  destruct (scl_released peer (bus dev) _);
    destruct (_ =? I2C_OK); cbn;
    try destruct (sda_reads peer (bus dev) _); cbn;
    rewrite <- ?app_assoc; cbn [app]; wire.
Qed.

End BitsOnTheWire.

(** ** Against a slave that acknowledges *)

Lemma pulses_in_app (tr1 tr2 : trace) :
  pulses_in (tr1 ++ tr2) = (pulses_in tr1 + pulses_in tr2)%nat.
Proof. unfold pulses_in. now rewrite List.filter_app, length_app. Qed.

Lemma bits_of_app (s1 s2 : list signal) :
  bits_of (s1 ++ s2) = bits_of s1 ++ bits_of s2.
Proof. unfold bits_of. apply flat_map_app. Qed.

Lemma mod9_succ (p : nat) :
  (p `mod` 9 <> 8 -> S p `mod` 9 = S (p `mod` 9))%nat.
Proof.
  intros H. pose proof (Nat.div_mod_eq p 9).
  pose proof (Nat.mod_upper_bound p 9 ltac:(lia)).
  symmetry. apply (Nat.mod_unique (S p) 9 (p / 9)); lia.
Qed.

Lemma mod9_wrap (p : nat) : (p `mod` 9 = 8 -> S p `mod` 9 = 0)%nat.
Proof.
  intros H. pose proof (Nat.div_mod_eq p 9).
  symmetry. apply (Nat.mod_unique (S p) 9 (S (p / 9))); lia.
Qed.

Section AckSlave.

Context {hdr : i2c_header}.
Variable dev : i2c_dev_t.

Lemma ack_slave_reads (tr : trace) :
  sda_reads ack_slave (bus dev) tr
  = sda_out (lines_after (bus dev) released tr)
    && negb (Nat.eqb (pulses_in tr `mod` 9) 0
             && negb (Nat.eqb (pulses_in tr) 0)).
Proof. reflexivity. Qed.

Lemma ack_slave_send_bit (bit : bool) (tr : trace) :
  (pulses_in tr `mod` 9 <> 8)%nat ->
  fst (i2c_master_send_bit ack_slave dev bit tr) = 1 /\
  pulses_in (snd (i2c_master_send_bit ack_slave dev bit tr))
  = S (pulses_in tr) /\
  bits_in dev (snd (i2c_master_send_bit ack_slave dev bit tr))
  = bits_in dev tr ++ [bit] /\
  clock_low dev (snd (i2c_master_send_bit ack_slave dev bit tr)).
Proof.
  intros Hp.
  assert (Hb : bus_eqb (bus dev) (bus dev) = true) by apply bus_eqb_refl.
  rewrite (send_bit_done ack_slave dev bit tr).
  - cbn [fst snd]. split; [reflexivity|]. split; [|split].
    + rewrite !pulses_in_app. destruct bit; cbn; lia.
    + unfold bits_in. rewrite signals_app, bits_of_app. f_equal.
      destruct (lines_after (bus dev) released tr) as [c d].
      destruct bit, c, d; cbn; rewrite ?Hb; cbn; rewrite ?Hb; reflexivity.
    + unfold clock_low. rewrite !lines_after_app. unfold lines_after.
      destruct bit; cbn; rewrite ?Hb; reflexivity.
  - reflexivity.
  - intros _. rewrite ack_slave_reads. apply andb_true_iff. split.
    + rewrite lines_after_app. unfold lines_after. cbn. now rewrite !Hb.
    + rewrite pulses_in_app.
      change (pulses_in [SdaSet (bus dev) true; SclSet (bus dev) true;
                         SclWait (bus dev) true]) with 1%nat.
      rewrite Nat.add_1_r, mod9_succ by assumption. reflexivity.
Qed.

Lemma ack_slave_recv_ack (tr : trace) :
  (pulses_in tr `mod` 9 = 8)%nat ->
  fst (i2c_master_recv_bit ack_slave dev tr) = 0 /\
  pulses_in (snd (i2c_master_recv_bit ack_slave dev tr))
  = S (pulses_in tr) /\
  bits_in dev (snd (i2c_master_recv_bit ack_slave dev tr))
  = bits_in dev tr ++ [true] /\
  clock_low dev (snd (i2c_master_recv_bit ack_slave dev tr)).
Proof.
  intros Hp.
  assert (Hb : bus_eqb (bus dev) (bus dev) = true) by apply bus_eqb_refl.
  rewrite (recv_bit_done ack_slave dev tr) by reflexivity.
  assert (Hlow : sda_reads ack_slave (bus dev)
                   (tr ++ [SdaSet (bus dev) true; DelayUs 4;
                           SclSet (bus dev) true; SclWait (bus dev) true])
                 = false).
  { rewrite ack_slave_reads. apply andb_false_iff. right.
    rewrite pulses_in_app.
    change (pulses_in [SdaSet (bus dev) true; DelayUs 4;
                       SclSet (bus dev) true; SclWait (bus dev) true])
      with 1%nat.
    rewrite Nat.add_1_r, mod9_wrap by assumption. reflexivity. }
  rewrite Hlow. cbn [fst snd b2z]. split; [reflexivity|]. split; [|split].
  - rewrite !pulses_in_app. cbn. lia.
  - unfold bits_in. rewrite signals_app, bits_of_app. f_equal.
    destruct (lines_after (bus dev) released tr) as [c d].
    destruct c, d; cbn; rewrite ?Hb; cbn; rewrite ?Hb; reflexivity.
  - unfold clock_low. rewrite !lines_after_app. unfold lines_after.
    cbn. now rewrite ?Hb.
Qed.

Lemma after_send_bits_cons (bit : bool) (bits : list bool) (tr : trace) :
  after_send_bits ack_slave dev (bit :: bits) tr
  = after_send_bits ack_slave dev bits
      (snd (i2c_master_send_bit ack_slave dev bit tr)).
Proof. reflexivity. Qed.

Lemma ack_slave_send_bits (bits : list bool) :
  forall tr,
    (pulses_in tr `mod` 9 + length bits <= 8)%nat ->
    (forall j bit,
       bits !! j = Some bit ->
       fst (i2c_master_send_bit ack_slave dev bit
              (after_send_bits ack_slave dev (take j bits) tr)) = 1) /\
    (pulses_in (after_send_bits ack_slave dev bits tr) `mod` 9
     = pulses_in tr `mod` 9 + length bits)%nat /\
    pulses_in (after_send_bits ack_slave dev bits tr)
    = (pulses_in tr + length bits)%nat /\
    bits_in dev (after_send_bits ack_slave dev bits tr)
    = bits_in dev tr ++ bits /\
    (clock_low dev tr ->
     clock_low dev (after_send_bits ack_slave dev bits tr) /\
     starts_in dev (after_send_bits ack_slave dev bits tr)
     = starts_in dev tr /\
     stops_in dev (after_send_bits ack_slave dev bits tr) = stops_in dev tr).
Proof.
  induction bits as [|bit bits IH]; intros tr Hp.
  - cbn. rewrite !Nat.add_0_r, app_nil_r. repeat split; try reflexivity.
    + intros j bit Hj. discriminate Hj.
    + assumption.
  - cbn [length] in Hp.
    assert (Hp8 : (pulses_in tr `mod` 9 <> 8)%nat) by lia.
    destruct (ack_slave_send_bit bit tr Hp8) as (R & P & B & L).
    pose proof (mod9_succ _ Hp8) as Hm.
    rewrite after_send_bits_cons.
    set (tr1 := snd (i2c_master_send_bit ack_slave dev bit tr)) in *.
    destruct (IH tr1) as (IR & IM & IP & IB & IL).
    { rewrite P, Hm. lia. }
    split; [|split; [|split; [|split]]].
    + intros [|j] bit' Hj.
      * injection Hj as <-. exact R.
      * cbn [firstn]. rewrite after_send_bits_cons. fold tr1.
        now apply IR.
    + rewrite IM, P, Hm. cbn [length]. lia.
    + rewrite IP, P. cbn [length]. lia.
    + rewrite IB, B, <- app_assoc. reflexivity.
    + intros Hlow.
      destruct (send_bit_no_condition ack_slave dev bit tr Hlow) as [S1 S2].
      fold tr1 in S1, S2.
      destruct (IL L) as (L' & S1' & S2').
      repeat split; [exact L'|congruence|congruence].
Qed.

Lemma first_loop_bit (data : Z) :
  0 <= data < 256 -> to_bool (Z.land (Z.shiftr data 7) 1) = Z.testbit data 7.
Proof.
  intros Hd. pose proof (loop_bits_msb data Hd) as E.
  apply (f_equal (fun l => l !! 0%nat)) in E.
  cbn [loop_bits msb_bits map lookup list_lookup] in E.
  now injection E.
Qed.

Lemma ack_slave_send_byte (data : Z) (tr : trace) :
  0 <= data < 256 ->
  (pulses_in tr `mod` 9 = 0)%nat ->
  let r := i2c_master_send_byte ack_slave dev data tr in
  r = (if I2C_OK =? 1
       then i2c_master_recv_ack ack_slave dev
              (after_send_bits ack_slave dev (msb_bits data) tr)
       else i2c_master_send_bit ack_slave dev (Z.testbit data 7) tr) /\
  fst r = (if I2C_OK =? 1 then 0 else 1) /\
  pulses_in (snd r)
  = (pulses_in tr + if (I2C_OK =? 1)%Z then 9 else 1)%nat /\
  bits_in dev (snd r)
  = bits_in dev tr
    ++ (if I2C_OK =? 1 then msb_bits data ++ [true]
        else [Z.testbit data 7]) /\
  (clock_low dev tr ->
   starts_in dev (snd r) = starts_in dev tr /\
   stops_in dev (snd r) = stops_in dev tr).
Proof.
  intros Hd Hp r.
  assert (Hlen : (pulses_in tr `mod` 9 + length (msb_bits data) <= 8)%nat)
    by (rewrite Hp; cbn; lia).
  assert (Hp8 : (pulses_in tr `mod` 9 <> 8)%nat) by lia.
  assert (E : r = (if I2C_OK =? 1
                   then i2c_master_recv_ack ack_slave dev
                          (after_send_bits ack_slave dev (msb_bits data) tr)
                   else i2c_master_send_bit ack_slave dev
                          (Z.testbit data 7) tr)).
  { subst r. destruct (Z.eqb_spec I2C_OK 1) as [Hone|Hne].
    - unfold i2c_master_send_byte.
      rewrite <- (loop_bits_msb data Hd) in *.
      apply send_byte_loop_all_ok. intros j bit Hj. rewrite Hone.
      destruct (ack_slave_send_bits (loop_bits 8 data) tr Hlen) as [H _].
      now apply H.
    - rewrite <- first_loop_bit by assumption.
      apply send_byte_first_bit_only; [assumption|].
      now apply ack_slave_send_bit. }
  split; [exact E|]. rewrite E. clear E r.
  destruct (Z.eqb_spec I2C_OK 1) as [Hone|Hne].
  - destruct (ack_slave_send_bits (msb_bits data) tr Hlen)
      as (_ & M & P & B & L).
    set (tr8 := after_send_bits ack_slave dev (msb_bits data) tr) in *.
    assert (M8 : (pulses_in tr8 `mod` 9 = 8)%nat)
      by (rewrite M, Hp; reflexivity).
    destruct (ack_slave_recv_ack tr8 M8) as (R' & P' & B' & _).
    unfold i2c_master_recv_ack.
    split; [exact R'|]. split; [|split].
    + rewrite P', P. cbn [length msb_bits map]. lia.
    + rewrite B', B, <- app_assoc. reflexivity.
    + intros Hlow. destruct (L Hlow) as (L8 & S1 & S2).
      destruct (recv_bit_no_condition ack_slave dev tr8 L8) as [S3 S4].
      split; congruence.
  - destruct (ack_slave_send_bit (Z.testbit data 7) tr Hp8)
      as (R & P & B & _).
    split; [exact R|]. split; [|split].
    + rewrite P. lia.
    + exact B.
    + intros Hlow. now apply send_bit_no_condition.
Qed.

End AckSlave.

(** C2, as the code has it against a slave that acknowledges every byte
    and never holds the clock: a bit transfer that runs to its end returns
    1, and [i2c_master_send_byte] goes on only after a result equal to
    [I2C_OK].  When [I2C_OK] is 1 the call is the eight calls to
    [i2c_master_send_bit] on the binary digits of the byte, most
    significant first, followed by the reception of the acknowledge bit,
    whose value 0 it returns.  For every other value of [I2C_OK] the call
    is the bit transfer of the most significant bit alone: it returns 1,
    the bus saw one clock pulse, and no acknowledge bit is received. *)
Theorem send_byte_to_acknowledging_slave
  (hdr : i2c_header) (dev : i2c_dev_t) (data : Z) (tr : trace) :
  0 <= data < 256 ->
  (pulses_in tr `mod` 9 = 0)%nat ->
  let r := i2c_master_send_byte ack_slave dev data tr in
  length (msb_bits data) = 8%nat /\
  of_bits (msb_bits data) = data /\
  r = (if I2C_OK =? 1
       then i2c_master_recv_ack ack_slave dev
              (after_send_bits ack_slave dev (msb_bits data) tr)
       else i2c_master_send_bit ack_slave dev (Z.testbit data 7) tr) /\
  fst r = (if I2C_OK =? 1 then 0 else 1) /\
  pulses_in (snd r)
  = (pulses_in tr + if (I2C_OK =? 1)%Z then 9 else 1)%nat /\
  bits_in dev (snd r)
  = bits_in dev tr
    ++ (if I2C_OK =? 1 then msb_bits data ++ [true]
        else [Z.testbit data 7]).
Proof.
  intros Hd Hp r. subst r.
  destruct (ack_slave_send_byte dev data tr Hd Hp) as (E & R & P & B & _).
  split; [reflexivity|]. split; [now apply of_bits_msb|].
  repeat split; assumption.
Qed.

Lemma send_byte_to_acknowledging_slave_witness :
  i2c_master_send_byte (hdr := header_with 0) ack_slave dev0 0xA5 []
  = i2c_master_send_bit (hdr := header_with 0) ack_slave dev0 true [] /\
  bits_in dev0
    (snd (i2c_master_send_byte (hdr := header_with 0) ack_slave dev0 0xA5 []))
  = [true].
Proof.
  destruct (send_byte_to_acknowledging_slave (header_with 0) dev0 0xA5 []
              ltac:(lia) eq_refl) as (_ & _ & H1 & _ & _ & H2).
  split; [exact H1|exact H2].
Defined.

Lemma addr_byte_msb_bits (i : Z) (read : bool) :
  msb_bits (Z.lor (Z.shiftl i 1) (b2z read))
  = map (fun k => Z.testbit i (Z.of_nat k)) [6; 5; 4; 3; 2; 1; 0]%nat
    ++ [read].
Proof.
  unfold msb_bits. cbn [map app].
  rewrite !Z.lor_spec, !Z.shiftl_spec by lia.
  repeat f_equal.
  all: destruct read; simpl; rewrite ?orb_false_r; reflexivity.
Qed.

(** C7, on the wire: the address byte is the slave identifier shifted left
    by one with the direction in the lowest bit, 0xA1 and 0xA0 for the
    identifier 0x50; its bits are the seven bits of the identifier and the
    direction.  Against a slave that acknowledges,
    [i2c_master_send_addr] puts all eight on the bus, followed by the
    acknowledge pulse, only when [I2C_OK] is 1; for every other value the
    bus sees the first identifier bit and nothing more, and the call
    returns 1. *)
Theorem send_addr_on_the_wire
  (hdr : i2c_header) (dev : i2c_dev_t) (read : bool) (tr : trace) :
  0 <= id (slave dev) < 128 ->
  (pulses_in tr `mod` 9 = 0)%nat ->
  let byte := Z.lor (Z.shiftl (id (slave dev)) 1) (if read then 1 else 0) in
  let r := i2c_master_send_addr ack_slave dev read tr in
  0 <= byte < 256 /\
  msb_bits byte
  = map (fun i => Z.testbit (id (slave dev)) (Z.of_nat i))
      [6; 5; 4; 3; 2; 1; 0]%nat ++ [read] /\
  (id (slave dev) = 0x50 -> byte = if read then 0xA1 else 0xA0) /\
  fst r = (if I2C_OK =? 1 then 0 else 1) /\
  bits_in dev (snd r)
  = bits_in dev tr
    ++ (if I2C_OK =? 1 then msb_bits byte ++ [true]
        else [Z.testbit (id (slave dev)) 6]).
Proof.
  intros Hid Hp byte r. subst byte r. fold (b2z read).
  destruct (addr_byte_range (id (slave dev)) read Hid) as [E R].
  pose proof (addr_byte_msb_bits (id (slave dev)) read) as Hbits.
  assert (H7 : Z.testbit (Z.lor (Z.shiftl (id (slave dev)) 1) (b2z read)) 7
               = Z.testbit (id (slave dev)) 6).
  { apply (f_equal (fun l => l !! 0%nat)) in Hbits.
    cbn [msb_bits map app lookup list_lookup] in Hbits.
    now injection Hbits. }
  split; [exact R|]. split; [exact Hbits|].
  split; [intros ->; now destruct read|].
  unfold i2c_master_send_addr. rewrite E.
  destruct (ack_slave_send_byte dev _ tr R Hp) as (_ & Hr & _ & Hb & _).
  rewrite H7 in Hb. split; [exact Hr|exact Hb].
Qed.

Lemma send_addr_on_the_wire_witness :
  Z.lor (Z.shiftl 0x50 1) 0 = 0xA0 /\
  bits_in dev0
    (snd (i2c_master_send_addr (hdr := header_with 0) ack_slave dev0 false
            []))
  = [true].
Proof.
  destruct (send_addr_on_the_wire (header_with 0) dev0 false []
              ltac:(cbn; lia) eq_refl) as (_ & _ & H1 & _ & H2).
  split; [exact (H1 eq_refl)|exact H2].
Defined.

(** The same address on the bus when the success status is 1: the eight
    bits of 0xA0, then the pulse of the acknowledge bit with the data line
    released. *)
Example addr_0x50_status_1 :
  bits_in dev0
    (snd (i2c_master_send_addr (hdr := header_with 1) ack_slave dev0 false
            []))
  = [true; false; true; false; false; false; false; false; true].
Proof. vm_compute. reflexivity. Qed.

(** C3, against a slave that acknowledges: a transfer with the flags START,
    WRITE and STOP on an idle bus makes the start condition and sends the
    address, and there it ends.  When [I2C_OK] is 1 the acknowledge bit of
    the address byte, 0, is taken for a failure and returned; for every
    other value the 1 that the first bit transfer returns is.  The result
    is 0 or 1 whatever [size] is, never 3; the buffer is as it was, none of
    its bytes is sent and no stop condition is made. *)
Theorem transfer_to_acknowledging_slave
  (hdr : i2c_header) (dev : i2c_dev_t) (buffer : list Z) (size : Z)
  (tr : trace) :
  header_ok hdr ->
  lines_after (bus dev) released tr = released ->
  pulses_in tr = 0%nat ->
  let r := i2c_master_transfer ack_slave dev buffer size
             (Z.lor I2C_START (Z.lor I2C_WRITE I2C_STOP)) tr in
  fst r = (if I2C_OK =? 1 then 0 else 1, buffer) /\
  fst (fst r) <> 3 /\
  pulses_in (snd r) = (if (I2C_OK =? 1)%Z then 9 else 1)%nat /\
  starts_in dev (snd r) = S (starts_in dev tr) /\
  stops_in dev (snd r) = stops_in dev tr.
Proof.
  intros Hhdr Hidle Hp r.
  pose proof (timeout_not_ok hdr Hhdr) as Hto.
  assert (Hco : I2C_ERROR_CONFLICT <> I2C_OK) by (destruct Hhdr; lia).
  assert (Hhigh : sda_reads ack_slave (bus dev) tr = true).
  { rewrite ack_slave_reads, Hidle, Hp. reflexivity. }
  assert (Hstart : i2c_master_send_start ack_slave dev tr
                   = (I2C_OK,
                      tr ++ [SdaGet (bus dev) true; SdaSet (bus dev) false;
                             DelayUs 4; SclSet (bus dev) false])).
  { now rewrite send_start_run, Hhigh. }
  destruct (send_start_signals ack_slave dev tr Hco Hidle)
    as (S1 & P1 & L1); [now rewrite Hstart|].
  rewrite Hstart in S1, P1, L1. cbn [snd] in S1, P1, L1.
  set (tr1 := tr ++ [SdaGet (bus dev) true; SdaSet (bus dev) false;
                     DelayUs 4; SclSet (bus dev) false]) in *.
  assert (Hp1 : pulses_in tr1 = 0%nat).
  { subst tr1. rewrite pulses_in_app, Hp. reflexivity. }
  assert (Hbyte : 0 <= uint8 (Z.lor (Z.shiftl (id (slave dev)) 1)
                                 (b2z false)) < 256)
    by (apply Z.mod_pos_bound; lia).
  destruct (ack_slave_send_byte dev _ tr1 Hbyte)
    as (_ & Ra & Pa & _ & La); [now rewrite Hp1|].
  fold (i2c_master_send_addr ack_slave dev false) in Ra, Pa, La.
  destruct (La L1) as [S2 P2].
  assert (Hfail : (fst (i2c_master_send_addr ack_slave dev false tr1)
                   =? I2C_OK) = false).
  { rewrite Ra. destruct (Z.eqb_spec I2C_OK 1) as [->|Hne];
      [reflexivity|]. apply Z.eqb_neq. congruence. }
  assert (E : r = ((fst (i2c_master_send_addr ack_slave dev false tr1),
                    buffer),
                   snd (i2c_master_send_addr ack_slave dev false tr1))).
  { subst r. unfold i2c_master_transfer.
    rewrite (sws_start Hhdr), (sws_not_read Hhdr).
    rewrite guard_run, Hstart. cbn [fst snd]. fold tr1.
    rewrite Z.eqb_refl, guard_run, Hfail. reflexivity. }
  rewrite E. cbn [fst snd]. rewrite Ra, Pa, Hp1, S2, P2, S1, P1.
  repeat split; try reflexivity.
  destruct (I2C_OK =? 1); lia.
Qed.

Lemma transfer_to_acknowledging_slave_witness :
  fst (i2c_master_transfer (hdr := header_with 0) ack_slave dev0 [1; 2; 3] 3
         (Z.lor 1 (Z.lor 8 2)) [])
  = (1, [1; 2; 3]) /\
  stops_in dev0
    (snd (i2c_master_transfer (hdr := header_with 0) ack_slave dev0
            [1; 2; 3] 3 (Z.lor 1 (Z.lor 8 2)) []))
  = 0%nat.
Proof.
  destruct (transfer_to_acknowledging_slave (header_with 0) dev0 [1; 2; 3] 3
              [] (header_with_ok 0 ltac:(lia)) eq_refl eq_refl)
    as (H1 & _ & _ & _ & H2).
  split; [exact H1|exact H2].
Defined.

(** ** Device registry *)

Section RegistryFacts.

Variable I2C_DEVICES_NUM : Z.
Hypothesis capacity : 0 <= I2C_DEVICES_NUM <= 255.

Lemma init_free_slot (c : i2c_bus_cfg_t * i2c_slave_cfg_t) (reg : registry)
  (k : nat) (tr : trace) :
  reg_at I2C_DEVICES_NUM reg k ->
  Z.of_nat k < I2C_DEVICES_NUM ->
  i2c_master_init I2C_DEVICES_NUM (fst c) (snd c) reg tr
  = ((Some k,
      {| i2c_devices_num := Z.of_nat (S k);
         i2c_devices := <[k := Some (mkdev c)]> (i2c_devices reg) |}),
     tr ++ [SdaSet (fst c) true; SclSet (fst c) true]).
Proof.
  intros [Hnum Hlen] Hk. unfold i2c_master_init. rewrite Hnum.
  destruct (Z.leb_spec I2C_DEVICES_NUM (Z.of_nat k)); [lia|].
  run. rewrite Nat2Z.id. unfold uint8, mkdev.
  rewrite Z.mod_small by lia.
  replace (Z.of_nat k + 1) with (Z.of_nat (S k)) by lia. reflexivity.
Qed.

Lemma init_full (bus_cfg : i2c_bus_cfg_t) (slave_cfg : i2c_slave_cfg_t)
  (reg : registry) (tr : trace) :
  fst (fst (i2c_master_init I2C_DEVICES_NUM bus_cfg slave_cfg reg tr)) = None
  <-> I2C_DEVICES_NUM <= i2c_devices_num reg.
Proof.
  unfold i2c_master_init.
  destruct (Z.leb_spec I2C_DEVICES_NUM (i2c_devices_num reg)).
  - cbn. tauto.
  - run. split; [discriminate|lia].
Qed.

Lemma init_all_cons (c : i2c_bus_cfg_t * i2c_slave_cfg_t)
  (rest : list (i2c_bus_cfg_t * i2c_slave_cfg_t)) (reg : registry)
  (tr : trace) :
  init_all I2C_DEVICES_NUM (c :: rest) reg tr
  = (let r := i2c_master_init I2C_DEVICES_NUM (fst c) (snd c) reg tr in
     let rs := init_all I2C_DEVICES_NUM rest (snd (fst r)) (snd r) in
     ((fst (fst r) :: fst (fst rs), snd (fst rs)), snd rs)).
Proof.
  cbn [init_all]. unfold st_bind, st_ret.
  destruct (i2c_master_init I2C_DEVICES_NUM (fst c) (snd c) reg tr)
    as [[h reg1] tr1].
  cbn [fst snd].
  now destruct (init_all I2C_DEVICES_NUM rest reg1 tr1) as [[hs reg2] tr2].
Qed.

Lemma init_all_spec (cfgs : list (i2c_bus_cfg_t * i2c_slave_cfg_t)) :
  forall k reg tr,
    reg_at I2C_DEVICES_NUM reg k ->
    Z.of_nat (k + length cfgs) <= I2C_DEVICES_NUM ->
    let r := init_all I2C_DEVICES_NUM cfgs reg tr in
    fst (fst r) = map Some (seq k (length cfgs)) /\
    reg_at I2C_DEVICES_NUM (snd (fst r)) (k + length cfgs) /\
    (forall j, (j < k)%nat ->
       i2c_devices (snd (fst r)) !! j = i2c_devices reg !! j) /\
    (forall j c, cfgs !! j = Some c ->
       i2c_devices (snd (fst r)) !! (k + j)%nat = Some (Some (mkdev c))).
Proof.
  induction cfgs as [|c rest IH]; intros k reg tr Hreg Hk r; subst r.
  - cbn. rewrite Nat.add_0_r. repeat split; try apply Hreg.
    intros j c Hj. discriminate Hj.
  - cbn [length] in *. rewrite init_all_cons.
    rewrite (init_free_slot c reg k tr Hreg) by lia.
    cbv zeta. cbn [fst snd].
    set (reg1 :=
           {| i2c_devices_num := Z.of_nat (S k);
              i2c_devices := <[k := Some (mkdev c)]> (i2c_devices reg) |}).
    set (tr1 := tr ++ [SdaSet (fst c) true; SclSet (fst c) true]).
    assert (Hreg1 : reg_at I2C_DEVICES_NUM reg1 (S k)).
    { split; [reflexivity|]. cbn. rewrite length_insert. apply Hreg. }
    destruct (IH (S k) reg1 tr1 Hreg1 ltac:(lia)) as (E & R & Hlow & Hnew).
    destruct (init_all I2C_DEVICES_NUM rest reg1 tr1) as [[hs reg2] tr2].
    cbn [fst snd] in *. subst hs.
    split; [reflexivity|].
    split.
    { replace (k + S (length rest))%nat with (S k + length rest)%nat by lia.
      exact R. }
    split.
    + intros j Hj. rewrite Hlow by lia. cbn.
      apply list_lookup_insert_ne. lia.
    + intros [|j] c' Hj.
      * injection Hj as <-. rewrite Nat.add_0_r, Hlow by lia. cbn.
        apply list_lookup_insert_eq. destruct Hreg as [_ Hlen]. lia.
      * replace (k + S j)%nat with (S k + j)%nat by lia. now apply Hnew.
Qed.

End RegistryFacts.

(** C8: with a capacity [I2C_DEVICES_NUM] that the [uint8_t] counter can
    hold, the first [I2C_DEVICES_NUM] calls to [i2c_master_init] return the
    table slots in order, which are distinct and not null; the call after
    them returns the null handle and changes nothing; after all the calls,
    every handle still points to the bus and slave configuration it was
    created with.  A call returns the null handle exactly when the counter
    has reached the capacity. *)
Theorem init_capacity
  (I2C_DEVICES_NUM : Z) (cfgs : list (i2c_bus_cfg_t * i2c_slave_cfg_t))
  (extra : i2c_bus_cfg_t * i2c_slave_cfg_t) (tr : trace) :
  0 <= I2C_DEVICES_NUM <= 255 ->
  length cfgs = Z.to_nat I2C_DEVICES_NUM ->
  let r := init_all I2C_DEVICES_NUM cfgs (registry_reset I2C_DEVICES_NUM) tr in
  let handles := fst (fst r) in
  let r' := i2c_master_init I2C_DEVICES_NUM (fst extra) (snd extra)
              (snd (fst r)) (snd r) in
  handles = map Some (seq 0 (Z.to_nat I2C_DEVICES_NUM)) /\
  NoDup handles /\
  Forall (fun h => h <> None) handles /\
  r' = ((None, snd (fst r)), snd r) /\
  (forall k c, cfgs !! k = Some c ->
     deref (snd (fst r')) (Some k) = Some (mkdev c)) /\
  (forall bus_cfg slave_cfg reg t,
     fst (fst (i2c_master_init I2C_DEVICES_NUM bus_cfg slave_cfg reg t))
     = None
     <-> I2C_DEVICES_NUM <= i2c_devices_num reg).
Proof.
  intros Hcap Hlen r handles r'. subst handles r'.
  assert (Hreset : reg_at I2C_DEVICES_NUM (registry_reset I2C_DEVICES_NUM) 0).
  { split; [reflexivity|]. cbn. apply length_replicate. }
  destruct (init_all_spec I2C_DEVICES_NUM Hcap cfgs 0
              (registry_reset I2C_DEVICES_NUM) tr Hreset ltac:(lia))
    as (E & [Hnum Hlen'] & _ & Hnew).
  fold r in E, Hnum, Hlen', Hnew. rewrite Hlen in E.
  assert (Hfull : i2c_master_init I2C_DEVICES_NUM (fst extra) (snd extra)
                    (snd (fst r)) (snd r) = ((None, snd (fst r)), snd r)).
  { unfold i2c_master_init. rewrite Hnum.
    destruct (Z.leb_spec I2C_DEVICES_NUM (Z.of_nat (0 + length cfgs)));
      [reflexivity|lia]. }
  split; [exact E|]. rewrite E.
  split; [|split; [|split; [exact Hfull|split]]].
  - apply (NoDup_fmap_2 Some), NoDup_seq.
  - apply Forall_forall. intros h Hin.
    apply (list_elem_of_fmap_1 Some) in Hin as (k & -> & _). discriminate.
  - intros k c Hk. rewrite Hfull. cbn [fst snd deref].
    pose proof (Hnew k c Hk) as Hd. cbn [Nat.add] in Hd.
    rewrite Hd. reflexivity.
  - intros bus_cfg slave_cfg reg t. now apply init_full.
Qed.

Lemma init_capacity_witness :
  fst (fst (init_all 4 four_cfgs (registry_reset 4) []))
  = [Some 0; Some 1; Some 2; Some 3]%nat /\
  fst (fst (i2c_master_init 4 (fst fifth_cfg) (snd fifth_cfg)
              (snd (fst (init_all 4 four_cfgs (registry_reset 4) [])))
              (snd (init_all 4 four_cfgs (registry_reset 4) []))))
  = None.
Proof.
  destruct (init_capacity 4 four_cfgs fifth_cfg [] ltac:(lia) eq_refl)
    as (H1 & _ & _ & H2 & _).
  split; [exact H1|]. rewrite H2. reflexivity.
Defined.

(** ** Round trip *)

(** With 1 as the success status, the byte 0xFF does go round; it is the
    only byte the receiving side can store then, as 0 is when the status
    is 0. *)
Example loopback_0xFF :
  loopback (hdr := header_with 1) dev0 dev0 0xFF 0 = 0xFF.
Proof. vm_compute. reflexivity. Qed.

Example shifted_in_status_1 : shifted_in (hdr := header_with 1) 8 0 = 0xFF.
Proof. reflexivity. Qed.

Example shifted_in_status_0 : shifted_in (hdr := header_with 0) 8 0 = 0.
Proof. reflexivity. Qed.

Lemma recv_byte_stores
  (hdr : i2c_header) (peer : peer_t) (dev : i2c_dev_t) (out : Z)
  (tr : trace) :
  snd (fst (i2c_master_recv_byte peer dev out tr)) = out \/
  snd (fst (i2c_master_recv_byte peer dev out tr)) = shifted_in 8 0.
Proof. apply recv_byte_loop_stores. Qed.

Lemma recv_byte_first_bit_fails
  (hdr : i2c_header) (peer : peer_t) (dev : i2c_dev_t) (out : Z) :
  fst (i2c_master_recv_bit peer dev []) <> I2C_OK ->
  snd (fst (i2c_master_recv_byte peer dev out [])) = out.
Proof.
  intros Hfail. unfold i2c_master_recv_byte.
  rewrite (recv_byte_loop_fails peer dev 8 0 0 out []);
    [reflexivity|lia|intros j Hj; lia|exact Hfail].
Qed.

Lemma tx_first_bit (hdr : i2c_header) :
  i2c_master_send_bit ack_slave dev0 true []
  = (1, [SdaSet (bus dev0) true; SclSet (bus dev0) true;
         SclWait (bus dev0) true; SdaGet (bus dev0) true; DelayUs 4;
         SclSet (bus dev0) false]).
Proof. apply (send_bit_done ack_slave dev0 true []); reflexivity. Qed.

Lemma rx_first_bit (hdr : i2c_header) (bits : list bool) :
  fst (i2c_master_recv_bit (sender (true :: bits)) dev0 []) = 1.
Proof. rewrite recv_bit_done by reflexivity. reflexivity. Qed.

(** C1, at the byte 0xA5: whatever the success status is, the receiving
    side does not store the byte; its output location keeps its content.
    When the status is 1, the second bit, a 0, ends the reception; when it
    is not, the sending side stops after its first bit and the first bit
    received, a 1, ends the reception. *)
Theorem loopback_0xA5_lost (hdr : i2c_header) (out : Z) :
  loopback dev0 dev0 0xA5 out = out.
Proof.
  destruct (Z.eq_dec I2C_OK 1) as [Hone|Hone].
  - destruct hdr as [ok c t s1 s2 s3 s4]. cbn in Hone. subst ok.
    vm_compute. reflexivity.
  - assert (Hsent : i2c_master_send_byte ack_slave dev0 0xA5 []
                    = i2c_master_send_bit ack_slave dev0 true []).
    { unfold i2c_master_send_byte. cbn [send_byte_loop].
      rewrite guard_run.
      change (to_bool (Z.land (Z.shiftr 165 7) 1)) with true.
      rewrite tx_first_bit. cbn [fst snd].
      destruct (Z.eqb_spec 1 I2C_OK); [congruence|reflexivity]. }
    unfold loopback. rewrite Hsent, tx_first_bit. cbn [snd].
    change (bits_of (signals (bus dev0) released _)) with [true].
    rewrite (recv_byte_first_bit_fails hdr).
    + reflexivity.
    + rewrite rx_first_bit. congruence.
Qed.

(** * Further properties *)

(** ** Events stay on the bus of the device *)

Section Appends.

Context {hdr : i2c_header}.
Variable peer : peer_t.
Variable dev : i2c_dev_t.
Variable P : event -> Prop.

Lemma appends_ret {A} (a : A) : appends P (st_ret a).
Proof. intros tr. exists []. now rewrite app_nil_r. Qed.

Lemma appends_emit (e : event) : P e -> appends P (emit e).
Proof. intros He tr. exists [e]. split; [reflexivity|]. now constructor. Qed.

Lemma appends_bind {A B} (m : M A) (k : A -> M B) :
  appends P m -> (forall a, appends P (k a)) -> appends P (st_bind m k).
Proof.
  intros Hm Hk tr. unfold st_bind.
  destruct (Hm tr) as (s1 & E1 & F1).
  destruct (m tr) as [a tr1]. cbn [snd] in E1. subst tr1.
  destruct (Hk a (tr ++ s1)) as (s2 & E2 & F2).
  exists (s1 ++ s2). rewrite E2, app_assoc. split; [reflexivity|].
  now apply Forall_app.
Qed.

Lemma appends_guard {A} (m : M Z) (fail : Z -> A) (k : Z -> M A) :
  appends P m -> (forall r, appends P (k r)) -> appends P (guard m fail k).
Proof.
  intros Hm Hk. unfold guard. apply appends_bind; [exact Hm|].
  intros r. destruct (r =? I2C_OK); [apply Hk|apply appends_ret].
Qed.

Lemma appends_if {A} (c : bool) (m1 m2 : M A) :
  appends P m1 -> appends P m2 -> appends P (if c then m1 else m2).
Proof. now destruct c. Qed.

End Appends.

Section OnBus.

Context {hdr : i2c_header}.
Variable peer : peer_t.
Variable dev : i2c_dev_t.

Ltac steps :=
  repeat first
    [ apply appends_ret
    | apply appends_emit; simpl; solve [auto]
    | apply appends_bind; [|intros ?]
    | apply appends_guard; [|intros ?]
    | apply appends_if ].

Lemma sda_get_on_bus : appends (on_bus (bus dev)) (i2c_sda_get peer dev).
Proof.
  intros tr. exists [SdaGet (bus dev) (sda_reads peer (bus dev) tr)].
  split; [reflexivity|]. now repeat constructor.
Qed.

Lemma scl_wait_on_bus : appends (on_bus (bus dev)) (i2c_scl_wait peer dev).
Proof.
  intros tr. exists [SclWait (bus dev) (scl_released peer (bus dev) tr)].
  split; [reflexivity|]. now repeat constructor.
Qed.

Lemma recv_bit_on_bus :
  appends (on_bus (bus dev)) (i2c_master_recv_bit peer dev).
Proof.
  unfold i2c_master_recv_bit, i2c_sda_set, i2c_scl_set, DELAY_US.
  steps; try apply scl_wait_on_bus; try apply sda_get_on_bus; steps.
Qed.

Lemma send_bit_on_bus (bit : bool) :
  appends (on_bus (bus dev)) (i2c_master_send_bit peer dev bit).
Proof.
  unfold i2c_master_send_bit, i2c_sda_set, i2c_scl_set, DELAY_US.
  steps; try apply scl_wait_on_bus; try apply sda_get_on_bus.
Qed.

Lemma send_byte_on_bus (data : Z) :
  appends (on_bus (bus dev)) (i2c_master_send_byte peer dev data).
Proof.
  unfold i2c_master_send_byte. generalize 8%nat as n. intros n. revert data.
  induction n as [|n IH]; intros data; cbn [send_byte_loop].
  - apply recv_bit_on_bus.
  - apply appends_guard; [apply send_bit_on_bus|]. intros _. apply IH.
Qed.

Lemma recv_byte_on_bus (out : Z) :
  appends (on_bus (bus dev)) (i2c_master_recv_byte peer dev out).
Proof.
  unfold i2c_master_recv_byte. generalize 8%nat as n, 0 as d. intros n.
  induction n as [|n IH]; intros d; cbn [recv_byte_loop].
  - apply appends_bind; [apply send_bit_on_bus|]. intros r.
    apply appends_ret.
  - apply appends_guard; [apply recv_bit_on_bus|]. intros r. apply IH.
Qed.

Lemma send_start_on_bus :
  appends (on_bus (bus dev)) (i2c_master_send_start peer dev).
Proof.
  unfold i2c_master_send_start, i2c_sda_set, i2c_scl_set, DELAY_US.
  steps; try apply sda_get_on_bus.
Qed.

Lemma send_stop_on_bus :
  appends (on_bus (bus dev)) (i2c_master_send_stop peer dev).
Proof.
  unfold i2c_master_send_stop, i2c_sda_set, i2c_scl_set, DELAY_US.
  steps; try apply scl_wait_on_bus.
Qed.

Lemma transfer_loop_on_bus (action : Z) (n : nat) :
  forall i buffer,
    appends (on_bus (bus dev)) (transfer_loop peer dev action n i buffer).
Proof.
  induction n as [|n IH]; intros i buffer; cbn [transfer_loop].
  - apply appends_if; [|apply appends_ret].
    apply appends_guard; [apply send_stop_on_bus|]. intros _.
    apply appends_ret.
  - apply appends_if.
    + apply appends_guard; [apply send_byte_on_bus|]. intros _. apply IH.
    + apply appends_bind; [apply recv_byte_on_bus|]. intros r.
      cbv zeta. apply appends_if; [apply IH|apply appends_ret].
Qed.

Lemma transfer_on_bus (buffer : list Z) (size action : Z) :
  appends (on_bus (bus dev))
    (i2c_master_transfer peer dev buffer size action).
Proof.
  unfold i2c_master_transfer. cbv zeta.
  apply appends_if; [|apply transfer_loop_on_bus].
  apply appends_guard; [apply send_start_on_bus|]. intros _.
  apply appends_guard; [apply send_byte_on_bus|]. intros _.
  apply transfer_loop_on_bus.
Qed.

Lemma addr_write_on_bus (addr buffer : list Z) (size : Z) :
  appends (on_bus (bus dev))
    (i2c_master_addr_write peer dev addr buffer size).
Proof.
  unfold i2c_master_addr_write.
  apply appends_bind; [apply transfer_on_bus|]. intros r.
  apply appends_if; [apply appends_ret|apply transfer_on_bus].
Qed.

(** Events of one bus leave every pin that is not of this bus alone. *)
Lemma other_pin_untouched (p : pio_t) (suffix : trace) :
  p <> scl (bus dev) -> p <> sda (bus dev) ->
  Forall (on_bus (bus dev)) suffix ->
  Forall (fun e => touches p e = false) suffix /\
  forall lvl, pin_after p lvl suffix = lvl.
Proof.
  intros Hscl Hsda Hall.
  induction Hall as [|e suffix He _ [IH1 IH2]].
  - split; [constructor|reflexivity].
  - assert (Ht : touches p e = false /\ forall lvl, pin_drive p lvl e = lvl).
    { destruct e as [b l|b l|b l|b r|us]; cbn in He |- *; try subst b;
        repeat match goal with
               | |- context [?x =? p] =>
                   destruct (Z.eqb_spec x p); [congruence|]
               end; auto. }
    destruct Ht as [Ht Hd]. split; [now constructor|].
    intros lvl. unfold pin_after in *. cbn [fold_left]. rewrite Hd.
    apply IH2.
Qed.

End OnBus.

Lemma appends_other_pin {A} (dev : i2c_dev_t) (m : M A) (p : pio_t)
  (lvl : bool) (tr : trace) :
  appends (on_bus (bus dev)) m ->
  p <> scl (bus dev) -> p <> sda (bus dev) ->
  exists suffix,
    snd (m tr) = tr ++ suffix /\
    Forall (on_bus (bus dev)) suffix /\
    Forall (fun e => touches p e = false) suffix /\
    pin_after p lvl (snd (m tr)) = pin_after p lvl tr.
Proof.
  intros Hm Hscl Hsda. destruct (Hm tr) as (suffix & E & Hall).
  destruct (other_pin_untouched dev p suffix Hscl Hsda Hall) as [T L].
  exists suffix. rewrite E. repeat split; try assumption.
  unfold pin_after. rewrite fold_left_app. apply L.
Qed.

(** X1: a transaction only adds events to the history, and each of them is
    made through the bus configuration of its device.  A pin that is
    neither the clock pin nor the data pin of that device is neither read
    nor written, and keeps the level it had.  This holds for
    [i2c_master_transfer], [i2c_master_addr_read] and
    [i2c_master_addr_write], whatever their outcome. *)
Theorem transactions_keep_to_their_bus
  (hdr : i2c_header) (peer : peer_t) (dev : i2c_dev_t) (addr buffer : list Z)
  (size action : Z) (p : pio_t) (lvl : bool) (tr : trace) :
  p <> scl (bus dev) ->
  p <> sda (bus dev) ->
  let keeps_to_its_pins (tr' : trace) :=
    exists suffix,
      tr' = tr ++ suffix /\
      Forall (on_bus (bus dev)) suffix /\
      Forall (fun e => touches p e = false) suffix /\
      pin_after p lvl tr' = pin_after p lvl tr in
  keeps_to_its_pins
    (snd (i2c_master_transfer peer dev buffer size action tr)) /\
  keeps_to_its_pins
    (snd (i2c_master_addr_read peer dev addr buffer size tr)) /\
  keeps_to_its_pins
    (snd (i2c_master_addr_write peer dev addr buffer size tr)).
Proof.
  intros Hscl Hsda keeps_to_its_pins. subst keeps_to_its_pins. cbv beta.
  split; [|split].
  - apply (appends_other_pin dev); [apply transfer_on_bus|assumption..].
  - change (i2c_master_addr_read peer dev addr buffer size)
      with (i2c_master_addr_write peer dev addr buffer size).
    apply (appends_other_pin dev); [apply addr_write_on_bus|assumption..].
  - apply (appends_other_pin dev); [apply addr_write_on_bus|assumption..].
Qed.

Lemma transactions_keep_to_their_bus_witness :
  pin_after 9 true
    (snd (i2c_master_addr_write (hdr := header_with 1) idle_bus dev0
            [0x10] [0xAA; 0xBB] 2 []))
  = true.
Proof.
  destruct (transactions_keep_to_their_bus (header_with 1) idle_bus dev0
              [0x10] [0xAA; 0xBB] 2 0 9 true [])
    as (_ & _ & suffix & _ & _ & _ & H).
  - cbn. lia.
  - cbn. lia.
  - exact H.
Defined.

(** ** Byte transfer: the other outcomes *)

Section ByteOutcomes.

Context {hdr : i2c_header}.
Variable peer : peer_t.
Variable dev : i2c_dev_t.

Lemma send_byte_loop_fails (n : nat) :
  forall k data tr bitk,
    (forall j bit, (j < k)%nat ->
       loop_bits n data !! j = Some bit ->
       fst (i2c_master_send_bit peer dev bit
              (after_send_bits peer dev (take j (loop_bits n data)) tr))
       = I2C_OK) ->
    loop_bits n data !! k = Some bitk ->
    fst (i2c_master_send_bit peer dev bitk
           (after_send_bits peer dev (take k (loop_bits n data)) tr))
    <> I2C_OK ->
    send_byte_loop peer dev n data tr
    = (fst (i2c_master_send_bit peer dev bitk
              (after_send_bits peer dev (take k (loop_bits n data)) tr)),
       after_send_bits peer dev (take (S k) (loop_bits n data)) tr).
Proof.
  induction n as [|n IH]; intros k data tr bitk Hbefore Hk Hfail;
    [discriminate Hk|].
  cbn [send_byte_loop]. rewrite guard_run.
  destruct k as [|k].
  - cbn [loop_bits] in Hk, Hfail |- *. injection Hk as <-.
    cbn [firstn after_send_bits fold_left] in Hfail |- *.
    apply Z.eqb_neq in Hfail. rewrite Hfail. reflexivity.
  - pose proof (Hbefore 0%nat _ ltac:(lia) eq_refl) as H0.
    cbn [loop_bits firstn after_send_bits fold_left] in H0.
    rewrite H0, Z.eqb_refl.
    rewrite (IH k _ _ bitk); [reflexivity| |exact Hk|exact Hfail].
    intros j bit Hj Hbit. apply (Hbefore (S j) bit); [lia|exact Hbit].
Qed.

Lemma recv_byte_loop_ok (n : nat) :
  I2C_ERROR_TIMEOUT <> I2C_OK ->
  forall d out tr,
    fst (fst (recv_byte_loop peer dev n d out tr)) = I2C_OK ->
    I2C_OK = 1 /\
    snd (fst (recv_byte_loop peer dev n d out tr)) = shifted_in n d.
Proof.
  intros Hto. induction n as [|n IH]; intros d out tr Hok.
  - cbn [recv_byte_loop] in Hok |- *. unfold st_bind, st_ret in Hok |- *.
    unfold i2c_master_send_ack in Hok |- *.
    destruct (i2c_master_send_bit peer dev false tr) as [ret tr1] eqn:E.
    cbn [fst snd] in Hok |- *. split; [|reflexivity].
    apply (send_bit_false_ok peer dev Hto tr). now rewrite E.
  - cbn [recv_byte_loop] in Hok |- *. rewrite guard_run in Hok |- *.
    destruct (Z.eqb_spec (fst (i2c_master_recv_bit peer dev tr)) I2C_OK)
      as [E|E]; [|cbn [fst] in Hok; contradiction].
    destruct (IH _ _ _ Hok) as [Hone Hd]. split; [exact Hone|].
    rewrite Hd, E. unfold shifted_in. symmetry.
    exact (Nat.iter_succ_r n
             (fun d => uint8 (Z.lor (Z.shiftl d 1) I2C_OK)) d).
Qed.

Lemma send_byte_loop_ok_ack (n : nat) :
  I2C_ERROR_TIMEOUT <> I2C_OK ->
  I2C_OK = 1 ->
  forall data tr,
    fst (send_byte_loop peer dev n data tr) = I2C_OK ->
    exists tr',
      snd (send_byte_loop peer dev n data tr)
      = tr' ++ [SdaGet (bus dev) true; DelayUs 4; SclSet (bus dev) false].
Proof.
  intros Hto Hone. induction n as [|n IH]; intros data tr Hok.
  - cbn [send_byte_loop] in Hok |- *.
    unfold i2c_master_recv_ack in Hok |- *.
    destruct (scl_released peer (bus dev)
                (tr ++ [SdaSet (bus dev) true; DelayUs 4;
                        SclSet (bus dev) true])) eqn:Hr.
    + rewrite recv_bit_done in Hok |- * by assumption.
      cbn [fst snd] in Hok |- *.
      destruct (sda_reads peer (bus dev) _); [|cbn in Hok; lia].
      exists (tr ++ [SdaSet (bus dev) true; DelayUs 4; SclSet (bus dev) true;
                     SclWait (bus dev) true]).
      now rewrite <- app_assoc.
    + rewrite recv_bit_timeout in Hok by assumption. cbn [fst] in Hok.
      contradiction.
  - pose proof Hok as Hok'.
    apply send_byte_loop_ok_inv in Hok' as [Hbit Hrest].
    rewrite send_byte_loop_step by assumption. now apply IH.
Qed.

End ByteOutcomes.

Lemma byte_has_zero_bit (data : Z) :
  0 <= data < 255 -> In false (loop_bits 8 data).
Proof.
  intros Hd.
  assert (H : forall d, 0 <= d < 256 ->
                d < 255 -> existsb negb (loop_bits 8 d) = true).
  { apply (byte_cases (fun d => d < 255 ->
                                existsb negb (loop_bits 8 d) = true)).
    vm_compute. reflexivity. }
  specialize (H data ltac:(lia) ltac:(lia)).
  apply existsb_exists in H as (x & Hin & Hx). now destruct x.
Qed.

(** X2: [i2c_master_send_byte] stops at the first bit transfer that does
    not return the success status: it returns that result, sends no further
    bit and does not clock in an acknowledge bit. *)
Theorem send_byte_bit_failure
  (hdr : i2c_header) (peer : peer_t) (dev : i2c_dev_t) (data : Z)
  (tr : trace) (k : nat) (bitk : bool) :
  0 <= data < 256 ->
  (forall j bit, (j < k)%nat ->
     msb_bits data !! j = Some bit ->
     fst (i2c_master_send_bit peer dev bit
            (after_send_bits peer dev (take j (msb_bits data)) tr))
     = I2C_OK) ->
  msb_bits data !! k = Some bitk ->
  fst (i2c_master_send_bit peer dev bitk
         (after_send_bits peer dev (take k (msb_bits data)) tr))
  <> I2C_OK ->
  i2c_master_send_byte peer dev data tr
  = (fst (i2c_master_send_bit peer dev bitk
            (after_send_bits peer dev (take k (msb_bits data)) tr)),
     after_send_bits peer dev (take (S k) (msb_bits data)) tr).
Proof.
  intros Hdata Hbefore Hk Hfail. unfold i2c_master_send_byte.
  rewrite <- (loop_bits_msb data Hdata) in *.
  now apply send_byte_loop_fails.
Qed.

Lemma send_byte_bit_failure_witness :
  i2c_master_send_byte (hdr := header_with 1) (stretch_after 2) dev0 0xA5 []
  = (-2,
     after_send_bits (hdr := header_with 1) (stretch_after 2) dev0
       [true; false; true] []).
Proof.
  apply (send_byte_bit_failure (header_with 1) (stretch_after 2) dev0 0xA5
           [] 2 true).
  - lia.
  - intros j bit Hj Hbit.
    do 2 (destruct j as [|j];
          [injection Hbit as <-; vm_compute; reflexivity|]). lia.
  - reflexivity.
  - vm_compute. discriminate.
Defined.

(** X3: [i2c_master_recv_byte] can return the success status only when
    that status is 1, and the byte it has then stored is 0xFF, whatever the
    peer put on the bus: each received bit had to equal the status for the
    loop to go on, and the acknowledge it sends returns 1. *)
Theorem recv_byte_ok_only_0xFF
  (hdr : i2c_header) (peer : peer_t) (dev : i2c_dev_t) (out : Z)
  (tr : trace) :
  header_ok hdr ->
  fst (fst (i2c_master_recv_byte peer dev out tr)) = I2C_OK ->
  I2C_OK = 1 /\ snd (fst (i2c_master_recv_byte peer dev out tr)) = 0xFF.
Proof.
  intros Hhdr Hok.
  destruct (recv_byte_loop_ok peer dev 8 (timeout_not_ok hdr Hhdr) 0 out tr
              Hok) as [Hone Hd].
  split; [exact Hone|]. unfold i2c_master_recv_byte. rewrite Hd.
  unfold shifted_in. rewrite Hone. reflexivity.
Qed.

Lemma recv_byte_ok_only_0xFF_witness :
  snd (fst (i2c_master_recv_byte (hdr := header_with 1) idle_bus dev0 0 []))
  = 0xFF.
Proof.
  apply (recv_byte_ok_only_0xFF (header_with 1) idle_bus dev0 0 []
           (header_with_ok 1 ltac:(lia))).
  vm_compute. reflexivity.
Defined.

(** X4: when [i2c_master_send_byte] returns the success status for a byte
    other than 0xFF, the success status is 1 and the acknowledge bit it
    read last was high: the call reports success only when the slave did
    not pull the data line low to acknowledge. *)
Theorem send_byte_ok_means_nack
  (hdr : i2c_header) (peer : peer_t) (dev : i2c_dev_t) (data : Z)
  (tr : trace) :
  header_ok hdr ->
  0 <= data < 255 ->
  fst (i2c_master_send_byte peer dev data tr) = I2C_OK ->
  I2C_OK = 1 /\
  exists tr',
    snd (i2c_master_send_byte peer dev data tr)
    = tr' ++ [SdaGet (bus dev) true; DelayUs 4; SclSet (bus dev) false].
Proof.
  intros Hhdr Hdata Hok. pose proof (timeout_not_ok hdr Hhdr) as Hto.
  assert (Hone : I2C_OK = 1).
  { apply (send_byte_loop_zero_bit peer dev Hto 8 data tr Hok).
    now apply byte_has_zero_bit. }
  split; [exact Hone|].
  now apply send_byte_loop_ok_ack.
Qed.

Lemma send_byte_ok_means_nack_witness :
  exists tr',
    snd (i2c_master_send_byte (hdr := header_with 1) idle_bus dev0 0xA5 [])
    = tr' ++ [SdaGet (bus dev0) true; DelayUs 4; SclSet (bus dev0) false].
Proof.
  apply (send_byte_ok_means_nack (header_with 1) idle_bus dev0 0xA5 []
           (header_with_ok 1 ltac:(lia))).
  - lia.
  - vm_compute. reflexivity.
Defined.

(** ** Transfers: failure and frame *)

Section TransferOutcomes.

Context {hdr : i2c_header}.
Variable peer : peer_t.
Variable dev : i2c_dev_t.

Lemma first_failure_head (m : M Z) (ms : list (M Z)) (tr : trace) (e : Z) :
  first_failure (fst (run_all (m :: ms) tr)) 0 e ->
  fst (m tr) = e /\ e <> I2C_OK.
Proof. intros (_ & Hk & He). cbn in Hk. injection Hk as <-. auto. Qed.

Lemma first_failure_tail (m : M Z) (ms : list (M Z)) (tr : trace) (k : nat)
  (e : Z) :
  first_failure (fst (run_all (m :: ms) tr)) (S k) e ->
  fst (m tr) = I2C_OK /\
  first_failure (fst (run_all ms (snd (m tr)))) k e.
Proof.
  intros (Hbefore & Hk & He). split.
  - apply (Hbefore 0%nat); [lia|reflexivity].
  - split; [|split; [exact Hk|exact He]].
    intros j r Hj Hr. apply (Hbefore (S j)); [lia|exact Hr].
Qed.

Lemma transfer_loop_first_failure (action : Z) (buffer0 : list Z) (n : nat) :
  forall i buffer tr k e,
    (forall j, (i <= j)%nat -> buf_get buffer j = buf_get buffer0 j) ->
    first_failure
      (fst (run_all (map (byte_phase peer dev action buffer0) (seq i n)
                     ++ stop_phase peer dev action) tr)) k e ->
    fst (fst (transfer_loop peer dev action n i buffer tr)) = e /\
    snd (transfer_loop peer dev action n i buffer tr)
    = snd (run_all
             (take (S k)
                (map (byte_phase peer dev action buffer0) (seq i n)
                 ++ stop_phase peer dev action)) tr).
Proof.
  induction n as [|n IH]; intros i buffer tr k e Hbuf Hff.
  - cbn [seq map app transfer_loop] in *. unfold stop_phase in *.
    destruct (to_bool (Z.land action I2C_STOP)).
    + destruct k as [|k].
      * apply first_failure_head in Hff as [<- He].
        apply Z.eqb_neq in He. rewrite guard_run, He. split; reflexivity.
      * destruct Hff as (_ & Hk & _). discriminate Hk.
    + destruct Hff as (_ & Hk & _). discriminate Hk.
  - cbn [seq map app transfer_loop] in *. cbn [firstn run_all snd].
    destruct (to_bool (Z.land action I2C_WRITE)) eqn:Hw.
    + destruct k as [|k].
      * apply first_failure_head in Hff as [<- He].
        rewrite byte_phase_write in He |- * by assumption.
        rewrite <- (Hbuf i) in * by lia.
        apply Z.eqb_neq in He. rewrite guard_run, He. split; reflexivity.
      * apply first_failure_tail in Hff as [Hbyte Hrest].
        rewrite byte_phase_write in Hbyte, Hrest |- * by assumption.
        rewrite <- (Hbuf i) in * by lia.
        rewrite guard_run, Hbyte, Z.eqb_refl.
        apply IH; [intros; apply Hbuf; lia|exact Hrest].
    + destruct k as [|k].
      * apply first_failure_head in Hff as [<- He].
        rewrite byte_phase_read in He |- * by assumption.
        rewrite <- (Hbuf i) in * by lia.
        unfold st_bind, st_ret.
        destruct (i2c_master_recv_byte peer dev (buf_get buffer i) tr)
          as [[ret out] tr1].
        cbn [fst snd] in He |- *. apply Z.eqb_neq in He. rewrite He.
        split; reflexivity.
      * apply first_failure_tail in Hff as [Hbyte Hrest].
        rewrite byte_phase_read in Hbyte, Hrest |- * by assumption.
        rewrite <- (Hbuf i) in * by lia.
        unfold st_bind, st_ret.
        destruct (i2c_master_recv_byte peer dev (buf_get buffer i) tr)
          as [[ret out] tr1].
        cbn [fst snd] in Hbyte, Hrest |- *. subst ret. rewrite Z.eqb_refl.
        apply IH; [|exact Hrest].
        intros j Hj. rewrite buf_get_insert_ne by lia. apply Hbuf. lia.
Qed.

(** The data loop keeps the length of the buffer and stores only into the
    slots [i .. i + n - 1]. *)
Lemma transfer_loop_frame (action : Z) (n : nat) :
  forall i buffer tr,
    length (snd (fst (transfer_loop peer dev action n i buffer tr)))
    = length buffer /\
    forall j, (j < i \/ i + n <= j)%nat ->
      snd (fst (transfer_loop peer dev action n i buffer tr)) !! j
      = buffer !! j.
Proof.
  induction n as [|n IH]; intros i buffer tr; cbn [transfer_loop].
  - destruct (to_bool (Z.land action I2C_STOP)); [|now split].
    rewrite guard_run. now destruct (_ =? _).
  - destruct (to_bool (Z.land action I2C_WRITE)).
    + rewrite guard_run. destruct (_ =? _); [|now split].
      destruct (IH (S i) buffer
                  (snd (i2c_master_send_byte peer dev (buf_get buffer i) tr)))
        as [L F].
      split; [exact L|]. intros j Hj. apply F. lia.
    + unfold st_bind, st_ret.
      destruct (i2c_master_recv_byte peer dev (buf_get buffer i) tr)
        as [[ret out] tr1].
      cbn [fst snd].
      assert (Hins : length (<[i := out]> buffer) = length buffer /\
                     forall j, (j < i \/ i + S n <= j)%nat ->
                       <[i := out]> buffer !! j = buffer !! j).
      { split; [apply length_insert|].
        intros j Hj. apply list_lookup_insert_ne. lia. }
      destruct Hins as [Li Fi].
      destruct (ret =? I2C_OK); [|now split].
      destruct (IH (S i) (<[i := out]> buffer) tr1) as [L F].
      split; [now rewrite L|].
      intros j Hj. rewrite F by lia. now apply Fi.
Qed.

End TransferOutcomes.

(** X5: when a phase of a transfer fails, [i2c_master_transfer] returns the
    result of the first phase that failed, not a count, and runs none of the
    phases after it.  The data phases are those of the [uint8_t] that [size]
    is converted to. *)
Theorem transfer_first_failure
  (hdr : i2c_header) (peer : peer_t) (dev : i2c_dev_t) (buffer : list Z)
  (size action : Z) (tr : trace) (k : nat) (e : Z) :
  first_failure
    (fst (run_all (phases peer dev buffer size action) tr)) k e ->
  fst (fst (i2c_master_transfer peer dev buffer size action tr)) = e /\
  snd (i2c_master_transfer peer dev buffer size action tr)
  = snd (run_all (take (S k) (phases peer dev buffer size action)) tr).
Proof.
  intros Hff. unfold i2c_master_transfer, phases, start_phase in *.
  destruct (to_bool (Z.land action I2C_START)).
  - cbn [app] in Hff |- *. destruct k as [|k].
    + apply first_failure_head in Hff as [<- He].
      apply Z.eqb_neq in He. rewrite guard_run, He. split; reflexivity.
    + apply first_failure_tail in Hff as [Hstart Hff].
      rewrite guard_run, Hstart, Z.eqb_refl. cbn [firstn run_all snd].
      destruct k as [|k].
      * apply first_failure_head in Hff as [<- He].
        apply Z.eqb_neq in He. rewrite guard_run, He. split; reflexivity.
      * apply first_failure_tail in Hff as [Haddr Hff].
        rewrite guard_run, Haddr, Z.eqb_refl. cbn [firstn run_all snd].
        now apply (transfer_loop_first_failure peer dev action buffer).
  - cbn [app] in Hff |- *.
    now apply (transfer_loop_first_failure peer dev action buffer).
Qed.

Lemma transfer_first_failure_witness :
  fst (fst (i2c_master_transfer (hdr := header_with 1) ack_slave dev0
              [1; 2; 3] 3 (Z.lor 1 (Z.lor 8 2)) []))
  = 0.
Proof.
  apply (transfer_first_failure (header_with 1) ack_slave dev0 [1; 2; 3] 3
           (Z.lor 1 (Z.lor 8 2)) [] 1 0).
  split; [|split].
  - intros j r Hj Hr. destruct j as [|j]; [|lia].
    vm_compute in Hr. now injection Hr as <-.
  - vm_compute. reflexivity.
  - vm_compute. discriminate.
Defined.

(** The size is taken modulo 256: a size of 256 runs no data phase, and a
    size of 258 runs two. *)
Example transfer_size_256 :
  i2c_master_transfer (hdr := header_with 0) idle_bus dev0 [1; 2; 3] 256 8 []
  = ((0, [1; 2; 3]), []).
Proof. vm_compute. reflexivity. Qed.

Example transfer_size_258 :
  fst (i2c_master_transfer (hdr := header_with 1) idle_bus dev0 [1; 2; 3]
         258 4 [])
  = (2, [0xFF; 0xFF; 3]).
Proof. vm_compute. reflexivity. Qed.

(** X6: [i2c_master_transfer] keeps the length of the buffer and stores
    only into its first [size] bytes, [size] being the [uint8_t] that the
    argument is converted to; in the write direction it stores nowhere. *)
Theorem transfer_frame
  (hdr : i2c_header) (peer : peer_t) (dev : i2c_dev_t) (buffer : list Z)
  (size action : Z) (tr : trace) :
  let buffer' :=
    snd (fst (i2c_master_transfer peer dev buffer size action tr)) in
  length buffer' = length buffer /\
  (forall j, (Z.to_nat (uint8 size) <= j)%nat ->
     buffer' !! j = buffer !! j) /\
  (to_bool (Z.land action I2C_WRITE) = true -> buffer' = buffer).
Proof.
  intros buffer'. subst buffer'.
  split; [|split; [|apply transfer_write_buffer]].
  - unfold i2c_master_transfer.
    destruct (to_bool (Z.land action I2C_START)).
    + rewrite guard_run. destruct (_ =? _); [|reflexivity].
      rewrite guard_run. destruct (_ =? _); [|reflexivity].
      apply transfer_loop_frame.
    + apply transfer_loop_frame.
  - intros j Hj. unfold i2c_master_transfer.
    destruct (to_bool (Z.land action I2C_START)).
    + rewrite guard_run. destruct (_ =? _); [|reflexivity].
      rewrite guard_run. destruct (_ =? _); [|reflexivity].
      apply transfer_loop_frame. lia.
    + apply transfer_loop_frame. lia.
Qed.

Lemma transfer_frame_witness :
  snd (fst (i2c_master_transfer (hdr := header_with 1) idle_bus dev0
              [1; 2; 3] 2 4 [])) !! 2%nat
  = Some 3.
Proof.
  destruct (transfer_frame (header_with 1) idle_bus dev0 [1; 2; 3] 2 4 [])
    as (_ & H & _).
  exact (H 2%nat ltac:(vm_compute; lia)).
Defined.

(** ** Addressed transfers: errors reach the caller *)

Section AddressedErrors.

Context {hdr : i2c_header}.
Hypothesis Hhdr : header_ok hdr.
Variable peer : peer_t.
Variable dev : i2c_dev_t.

Lemma start_write_starts :
  to_bool (Z.land (Z.lor I2C_START I2C_WRITE) I2C_START) = true.
Proof. apply land_lor_l. rewrite Z.land_diag. apply Hhdr. Qed.

Lemma start_write_not_read :
  to_bool (Z.land (Z.lor I2C_START I2C_WRITE) I2C_READ) = false.
Proof.
  apply land_lor_none; [apply Hhdr|]. rewrite Z.land_comm. apply Hhdr.
Qed.

Lemma conflict_not_ok : I2C_ERROR_CONFLICT <> I2C_OK.
Proof. destruct Hhdr. lia. Qed.

Lemma first_transfer_busy (addr : list Z) (tr : trace) :
  sda_reads peer (bus dev) tr = false ->
  i2c_master_transfer peer dev addr (addr_bytes (slave dev))
    (Z.lor I2C_START I2C_WRITE) tr
  = ((I2C_ERROR_CONFLICT, addr), tr ++ [SdaGet (bus dev) false]).
Proof.
  intros Hlow. unfold i2c_master_transfer. rewrite start_write_starts.
  rewrite guard_run, send_start_run, Hlow. cbn [fst snd].
  destruct (Z.eqb_spec I2C_ERROR_CONFLICT I2C_OK) as [E|E];
    [now apply conflict_not_ok in E|reflexivity].
Qed.

Lemma first_transfer_stuck (addr : list Z) (tr : trace) :
  sda_reads peer (bus dev) tr = true ->
  scl_released peer (bus dev)
    (tr ++ [SdaGet (bus dev) true; SdaSet (bus dev) false; DelayUs 4;
            SclSet (bus dev) false;
            SdaSet (bus dev) (Z.testbit (id (slave dev)) 6);
            SclSet (bus dev) true]) = false ->
  i2c_master_transfer peer dev addr (addr_bytes (slave dev))
    (Z.lor I2C_START I2C_WRITE) tr
  = ((I2C_ERROR_TIMEOUT, addr),
     tr ++ [SdaGet (bus dev) true; SdaSet (bus dev) false; DelayUs 4;
            SclSet (bus dev) false;
            SdaSet (bus dev) (Z.testbit (id (slave dev)) 6);
            SclSet (bus dev) true; SclWait (bus dev) false]).
Proof.
  intros Hhigh Hstuck.
  pose proof (timeout_not_ok hdr Hhdr) as Hto.
  assert (Hne : (I2C_ERROR_TIMEOUT =? I2C_OK) = false)
    by now apply Z.eqb_neq.
  assert (Hbit : to_bool
                   (Z.land
                      (Z.shiftr
                         (uint8 (Z.lor (Z.shiftl (id (slave dev)) 1)
                                   (b2z false))) 7) 1)
                 = Z.testbit (id (slave dev)) 6).
  { unfold to_bool, uint8. cbn [b2z]. rewrite Z.lor_0_r.
    change (Z.land ?x 1) with (Z.land x (Z.ones 1)).
    rewrite Z.land_ones by lia. change (2 ^ 1) with 2.
    rewrite <- Z.bit0_mod, Z.shiftr_spec by lia.
    change 256 with (2 ^ 8).
    rewrite Z.mod_pow2_bits_low, Z.shiftl_spec by lia.
    change (0 + 7 - 1) with 6.
    now destruct (Z.testbit (id (slave dev)) 6). }
  set (t := tr ++ [SdaGet (bus dev) true; SdaSet (bus dev) false;
                   DelayUs 4; SclSet (bus dev) false]).
  assert (Haddr :
            i2c_master_send_addr peer dev false t
            = (I2C_ERROR_TIMEOUT,
               t ++ [SdaSet (bus dev) (Z.testbit (id (slave dev)) 6);
                     SclSet (bus dev) true; SclWait (bus dev) false])).
  { unfold i2c_master_send_addr, i2c_master_send_byte.
    cbn [send_byte_loop]. rewrite guard_run, Hbit.
    rewrite (send_bit_timeout peer dev Hto)
      by (subst t; rewrite <- app_assoc; exact Hstuck).
    cbn [fst snd]. now rewrite Hne. }
  unfold i2c_master_transfer.
  rewrite start_write_starts, start_write_not_read.
  rewrite guard_run, send_start_run, Hhigh. cbn [fst snd].
  fold t. rewrite Z.eqb_refl, guard_run, Haddr. cbn [fst snd]. rewrite Hne.
  subst t. now rewrite <- app_assoc.
Qed.

End AddressedErrors.

(** X7: on a bus whose data line reads low, [i2c_master_addr_write] and
    [i2c_master_addr_read] return the bus-conflict error after that single
    read: nothing is driven, nothing is sent, and the buffer is as it was. *)
Theorem addressed_transfer_on_busy_bus
  (hdr : i2c_header) (peer : peer_t) (dev : i2c_dev_t) (addr buffer : list Z)
  (size : Z) (tr : trace) :
  header_ok hdr ->
  sda_reads peer (bus dev) tr = false ->
  i2c_master_addr_write peer dev addr buffer size tr
  = ((I2C_ERROR_CONFLICT, buffer), tr ++ [SdaGet (bus dev) false]) /\
  i2c_master_addr_read peer dev addr buffer size tr
  = ((I2C_ERROR_CONFLICT, buffer), tr ++ [SdaGet (bus dev) false]).
Proof.
  intros Hhdr Hlow.
  assert (E : i2c_master_addr_write peer dev addr buffer size tr
              = ((I2C_ERROR_CONFLICT, buffer),
                 tr ++ [SdaGet (bus dev) false])).
  { unfold i2c_master_addr_write, st_bind, st_ret.
    rewrite (first_transfer_busy Hhdr peer dev addr tr Hlow). cbn [fst snd].
    destruct (Z.ltb_spec I2C_ERROR_CONFLICT 0) as [_|H]; [reflexivity|].
    destruct Hhdr. lia. }
  split; exact E.
Qed.

Lemma addressed_transfer_on_busy_bus_witness :
  i2c_master_addr_write (hdr := header_with 0) busy_bus dev0 [0x10]
    [0xAA; 0xBB] 2 []
  = ((-1, [0xAA; 0xBB]), [SdaGet (bus dev0) false]).
Proof.
  apply (addressed_transfer_on_busy_bus (header_with 0) busy_bus dev0 [0x10]
           [0xAA; 0xBB] 2 [] (header_with_ok 0 ltac:(lia))).
  reflexivity.
Defined.

(** X8: when the clock line is held low, [i2c_master_addr_write] and
    [i2c_master_addr_read] on an otherwise free bus return the timeout
    status: the start condition is made, the first address bit is put on
    the data line, the clock wait fails, and the call ends there with the
    buffer as it was and without a stop condition: the clock line is left
    released and the data line at the level of the first address bit. *)
Theorem addressed_transfer_on_stuck_clock
  (hdr : i2c_header) (peer : peer_t) (dev : i2c_dev_t) (addr buffer : list Z)
  (size : Z) (tr : trace) :
  header_ok hdr ->
  sda_reads peer (bus dev) tr = true ->
  (forall b t, scl_released peer b t = false) ->
  let b := bus dev in
  let tr' :=
    tr ++ [SdaGet b true; SdaSet b false; DelayUs 4; SclSet b false;
           SdaSet b (Z.testbit (id (slave dev)) 6); SclSet b true;
           SclWait b false] in
  i2c_master_addr_write peer dev addr buffer size tr
  = ((I2C_ERROR_TIMEOUT, buffer), tr') /\
  i2c_master_addr_read peer dev addr buffer size tr
  = ((I2C_ERROR_TIMEOUT, buffer), tr') /\
  (lines_after b released tr = released ->
   stops_in dev tr' = stops_in dev tr /\
   lines_after b released tr'
   = {| scl_out := true; sda_out := Z.testbit (id (slave dev)) 6 |}).
Proof.
  intros Hhdr Hhigh Hstuck b tr'. subst b tr'.
  assert (E : i2c_master_addr_write peer dev addr buffer size tr
              = ((I2C_ERROR_TIMEOUT, buffer),
                 tr ++ [SdaGet (bus dev) true; SdaSet (bus dev) false;
                        DelayUs 4; SclSet (bus dev) false;
                        SdaSet (bus dev) (Z.testbit (id (slave dev)) 6);
                        SclSet (bus dev) true; SclWait (bus dev) false])).
  { unfold i2c_master_addr_write, st_bind, st_ret.
    rewrite (first_transfer_stuck Hhdr peer dev addr tr Hhigh (Hstuck _ _)).
    cbn [fst snd].
    destruct (Z.ltb_spec I2C_ERROR_TIMEOUT 0) as [_|H]; [reflexivity|].
    destruct Hhdr. lia. }
  split; [exact E|]. split; [exact E|].
  intros Hidle. unfold stops_in.
  rewrite signals_app, count_signal_app, lines_after_app, Hidle.
  unfold lines_after. cbn. rewrite !bus_eqb_refl. cbn.
  split; [|reflexivity].
  destruct (Z.testbit (id (slave dev)) 6); cbn; lia.
Qed.

Lemma addressed_transfer_on_stuck_clock_witness :
  fst (i2c_master_addr_read (hdr := header_with 0) stuck_clock dev0 [0x10]
         [0xAA; 0xBB] 2 [])
  = (-2, [0xAA; 0xBB]).
Proof.
  destruct (addressed_transfer_on_stuck_clock (header_with 0) stuck_clock
              dev0 [0x10] [0xAA; 0xBB] 2 [] (header_with_ok 0 ltac:(lia))
              eq_refl (fun _ _ => eq_refl)) as (_ & H & _).
  rewrite H. reflexivity.
Defined.

(** ** Registry: any number of calls *)

Section RegistryRuns.

Variable I2C_DEVICES_NUM : Z.

Lemma init_all_app (l1 l2 : list (i2c_bus_cfg_t * i2c_slave_cfg_t)) :
  forall reg tr,
    init_all I2C_DEVICES_NUM (l1 ++ l2) reg tr
    = (let r1 := init_all I2C_DEVICES_NUM l1 reg tr in
       let r2 := init_all I2C_DEVICES_NUM l2 (snd (fst r1)) (snd r1) in
       ((fst (fst r1) ++ fst (fst r2), snd (fst r2)), snd r2)).
Proof.
  induction l1 as [|c l1 IH]; intros reg tr.
  - cbn. now destruct (init_all I2C_DEVICES_NUM l2 reg tr) as [[hs r] t].
  - cbn [app]. rewrite !init_all_cons. cbv zeta. rewrite IH. reflexivity.
Qed.

Lemma init_all_full (cfgs : list (i2c_bus_cfg_t * i2c_slave_cfg_t)) :
  forall reg tr,
    I2C_DEVICES_NUM <= i2c_devices_num reg ->
    init_all I2C_DEVICES_NUM cfgs reg tr
    = ((replicate (length cfgs) None, reg), tr).
Proof.
  induction cfgs as [|c rest IH]; intros reg tr Hfull; [reflexivity|].
  rewrite init_all_cons. unfold i2c_master_init.
  destruct (Z.leb_spec I2C_DEVICES_NUM (i2c_devices_num reg)); [|lia].
  unfold st_ret. cbv zeta. cbn [fst snd]. now rewrite IH.
Qed.

End RegistryRuns.

(** X9: whatever the number of calls to [i2c_master_init] on a fresh table
    of capacity at most 255, the calls that find a free slot get the slots
    0, 1, 2, ... in order and all the later calls get the null handle; the
    counter ends at the number of slots handed out, never above the
    capacity, the table keeps its length, and every slot handed out holds
    the configurations of the call that got it. *)
Theorem init_any_number
  (I2C_DEVICES_NUM : Z) (cfgs : list (i2c_bus_cfg_t * i2c_slave_cfg_t))
  (tr : trace) :
  0 <= I2C_DEVICES_NUM <= 255 ->
  let n := Z.to_nat I2C_DEVICES_NUM in
  let r := init_all I2C_DEVICES_NUM cfgs (registry_reset I2C_DEVICES_NUM) tr in
  fst (fst r)
  = map Some (seq 0 (served n cfgs)) ++ replicate (refused n cfgs) None /\
  i2c_devices_num (snd (fst r)) = Z.of_nat (served n cfgs) /\
  i2c_devices_num (snd (fst r)) <= I2C_DEVICES_NUM /\
  length (i2c_devices (snd (fst r))) = n /\
  (forall k c, (k < n)%nat -> cfgs !! k = Some c ->
     deref (snd (fst r)) (Some k) = Some (mkdev c)).
Proof.
  intros Hcap n r.
  assert (Hreset : reg_at I2C_DEVICES_NUM (registry_reset I2C_DEVICES_NUM) 0).
  { split; [reflexivity|]. cbn. apply length_replicate. }
  assert (Hlen1 : length (take n cfgs) = served n cfgs).
  { unfold served. rewrite length_take. lia. }
  assert (Hlen2 : length (drop n cfgs) = refused n cfgs).
  { unfold refused. apply length_drop. }
  destruct (init_all_spec I2C_DEVICES_NUM Hcap (take n cfgs) 0
              (registry_reset I2C_DEVICES_NUM) tr Hreset)
    as (E & [Hnum Hlen] & _ & Hnew).
  { rewrite Hlen1. unfold served. subst n. lia. }
  set (r1 := init_all I2C_DEVICES_NUM (take n cfgs)
               (registry_reset I2C_DEVICES_NUM) tr) in *.
  rewrite Hlen1 in E, Hnum. cbn [Nat.add] in Hnum.
  assert (Hrest : init_all I2C_DEVICES_NUM (drop n cfgs) (snd (fst r1))
                    (snd r1)
                  = ((replicate (refused n cfgs) None, snd (fst r1)),
                     snd r1)).
  { destruct (Nat.le_gt_cases (length cfgs) n) as [Hle|Hgt].
    - rewrite drop_ge by exact Hle. unfold refused.
      replace (length cfgs - n)%nat with 0%nat by lia. reflexivity.
    - rewrite <- Hlen2. apply init_all_full. rewrite Hnum.
      unfold served. subst n. lia. }
  assert (Hrun : r = ((fst (fst r1) ++ replicate (refused n cfgs) None,
                       snd (fst r1)), snd r1)).
  { subst r. transitivity
      (init_all I2C_DEVICES_NUM (take n cfgs ++ drop n cfgs)
         (registry_reset I2C_DEVICES_NUM) tr);
      [now rewrite take_drop|].
    rewrite init_all_app. cbv zeta. fold r1. now rewrite Hrest. }
  rewrite Hrun. cbn [fst snd].
  split; [now rewrite E|]. split; [exact Hnum|].
  split; [rewrite Hnum; unfold served; subst n; lia|].
  split; [exact Hlen|].
  intros k c Hk Hc. cbn [deref].
  assert (Hk' : take n cfgs !! k = Some c) by now rewrite lookup_take_lt.
  pose proof (Hnew k c Hk') as Hd. cbn [Nat.add] in Hd.
  rewrite Hd. reflexivity.
Qed.

Lemma init_any_number_witness :
  fst (fst (init_all 2 four_cfgs (registry_reset 2) []))
  = [Some 0; Some 1; None; None]%nat.
Proof.
  destruct (init_any_number 2 four_cfgs [] ltac:(lia)) as (H & _).
  exact H.
Defined.

(** X10: the counter of the registry is a [uint8_t].  With a capacity of
    256 or more it never reaches the capacity: [i2c_master_init] never
    returns the null handle, and a call made when the counter is 255 wraps
    it to 0, so that the next call hands out slot 0 again. *)
Theorem init_counter_wraps
  (I2C_DEVICES_NUM : Z) (bus_cfg : i2c_bus_cfg_t)
  (slave_cfg : i2c_slave_cfg_t) (reg : registry) (tr : trace) :
  256 <= I2C_DEVICES_NUM ->
  0 <= i2c_devices_num reg < 256 ->
  let r := i2c_master_init I2C_DEVICES_NUM bus_cfg slave_cfg reg tr in
  fst (fst r) = Some (Z.to_nat (i2c_devices_num reg)) /\
  0 <= i2c_devices_num (snd (fst r)) < 256 /\
  (i2c_devices_num reg = 255 ->
   i2c_devices_num (snd (fst r)) = 0 /\
   forall bus_cfg' slave_cfg' tr',
     fst (fst (i2c_master_init I2C_DEVICES_NUM bus_cfg' slave_cfg'
                 (snd (fst r)) tr'))
     = Some 0%nat).
Proof.
  intros Hcap Hnum r. subst r. unfold i2c_master_init.
  destruct (Z.leb_spec I2C_DEVICES_NUM (i2c_devices_num reg)); [lia|].
  unfold st_bind, st_ret, i2c_sda_set, i2c_scl_set, emit. cbn [fst snd].
  split; [reflexivity|]. split.
  - unfold uint8. apply Z.mod_pos_bound. lia.
  - intros E. rewrite E. cbn [i2c_devices_num].
    split; [reflexivity|]. intros bus_cfg' slave_cfg' tr'.
    change (uint8 (255 + 1)) with 0.
    destruct (Z.leb_spec I2C_DEVICES_NUM 0); [lia|reflexivity].
Qed.

Lemma init_counter_wraps_witness :
  i2c_devices_num
    (snd (fst (i2c_master_init 256 (fst fifth_cfg) (snd fifth_cfg)
                 {| i2c_devices_num := 255;
                    i2c_devices := replicate 256 None |} [])))
  = 0.
Proof.
  destruct (init_counter_wraps 256 (fst fifth_cfg) (snd fifth_cfg)
              {| i2c_devices_num := 255; i2c_devices := replicate 256 None |}
              [] ltac:(lia) ltac:(cbn; lia)) as (_ & _ & H).
  apply H. reflexivity.
Defined.

(** ** Bit transfers on the wire *)

(** X11: a bit transfer that is entered with the clock line driven low
    changes the data line only while the clock is low: whatever its
    outcome, [i2c_master_send_bit] and [i2c_master_recv_bit] show neither a
    start nor a stop condition on the bus. *)
Theorem bit_transfer_no_condition
  (hdr : i2c_header) (peer : peer_t) (dev : i2c_dev_t) (bit : bool)
  (tr : trace) :
  clock_low dev tr ->
  (starts_in dev (snd (i2c_master_send_bit peer dev bit tr))
   = starts_in dev tr /\
   stops_in dev (snd (i2c_master_send_bit peer dev bit tr))
   = stops_in dev tr) /\
  (starts_in dev (snd (i2c_master_recv_bit peer dev tr)) = starts_in dev tr /\
   stops_in dev (snd (i2c_master_recv_bit peer dev tr)) = stops_in dev tr).
Proof.
  intros Hlow. split.
  - now apply send_bit_no_condition.
  - now apply recv_bit_no_condition.
Qed.

Lemma bit_transfer_no_condition_witness :
  starts_in dev0
    (snd (i2c_master_send_bit (hdr := header_with 0) stuck_clock dev0 false
            [SdaGet (bus dev0) true; SdaSet (bus dev0) false; DelayUs 4;
             SclSet (bus dev0) false]))
  = 1%nat.
Proof.
  destruct (bit_transfer_no_condition (header_with 0) stuck_clock dev0 false
              [SdaGet (bus dev0) true; SdaSet (bus dev0) false; DelayUs 4;
               SclSet (bus dev0) false] eq_refl) as [[H _] _].
  rewrite H. reflexivity.
Defined.

(** X12: after a clock timeout in the address phase the data line stays as
    the first address bit left it.  For a slave identifier whose bit 6 is
    clear the master itself keeps the data line low, so on a bus where a
    line driven low reads low every later [i2c_master_addr_write] on that
    bus returns the bus-conflict error at once, also when the clock has
    been let go. *)
Theorem lockout_after_timeout
  (hdr : i2c_header) (peer : peer_t) (dev : i2c_dev_t)
  (addr buffer addr2 buffer2 : list Z) (size size2 : Z) (tr : trace) :
  header_ok hdr ->
  (forall t, sda_out (lines_after (bus dev) released t) = false ->
             sda_reads peer (bus dev) t = false) ->
  lines_after (bus dev) released tr = released ->
  sda_reads peer (bus dev) tr = true ->
  scl_released peer (bus dev)
    (tr ++ [SdaGet (bus dev) true; SdaSet (bus dev) false; DelayUs 4;
            SclSet (bus dev) false;
            SdaSet (bus dev) (Z.testbit (id (slave dev)) 6);
            SclSet (bus dev) true]) = false ->
  Z.testbit (id (slave dev)) 6 = false ->
  let r1 := i2c_master_addr_write peer dev addr buffer size tr in
  fst r1 = (I2C_ERROR_TIMEOUT, buffer) /\
  i2c_master_addr_write peer dev addr2 buffer2 size2 (snd r1)
  = ((I2C_ERROR_CONFLICT, buffer2),
     snd r1 ++ [SdaGet (bus dev) false]).
Proof.
  intros Hhdr Hwired Hidle Hhigh Hstuck Hbit6 r1.
  assert (Hneg : forall e, e < 0 -> (e <? 0) = true)
    by (intros e He; now apply Z.ltb_lt).
  assert (E1 : r1
               = ((I2C_ERROR_TIMEOUT, buffer),
                  tr ++ [SdaGet (bus dev) true; SdaSet (bus dev) false;
                         DelayUs 4; SclSet (bus dev) false;
                         SdaSet (bus dev) (Z.testbit (id (slave dev)) 6);
                         SclSet (bus dev) true; SclWait (bus dev) false])).
  { subst r1. unfold i2c_master_addr_write, st_bind, st_ret.
    rewrite (first_transfer_stuck Hhdr peer dev addr tr Hhigh Hstuck).
    cbn [fst snd]. rewrite Hneg by apply Hhdr. reflexivity. }
  rewrite E1. cbn [fst snd]. split; [reflexivity|].
  set (tr' := tr ++ _).
  assert (Hlow : sda_reads peer (bus dev) tr' = false).
  { apply Hwired. subst tr'. rewrite lines_after_app, Hidle, Hbit6.
    unfold lines_after. cbn. now rewrite !bus_eqb_refl. }
  unfold i2c_master_addr_write, st_bind, st_ret.
  rewrite (first_transfer_busy Hhdr peer dev addr2 tr' Hlow).
  cbn [fst snd]. rewrite Hneg by apply Hhdr. reflexivity.
Qed.

Lemma lockout_after_timeout_witness :
  fst (i2c_master_addr_write (hdr := header_with 0) stuck_clock dev1 [0x01]
         [0x55] 1
         (snd (i2c_master_addr_write (hdr := header_with 0) stuck_clock dev1
                 [0x00] [0xAA] 1 [])))
  = (-1, [0x55]).
Proof.
  destruct (lockout_after_timeout (header_with 0) stuck_clock dev1
              [0x00] [0xAA] [0x01] [0x55] 1 1 []
              (header_with_ok 0 ltac:(lia))) as [_ H].
  - intros t Ht.
    change (sda_out (lines_after (bus dev1) released t) && true = false).
    now rewrite Ht.
  - reflexivity.
  - reflexivity.
  - reflexivity.
  - reflexivity.
  - cbv zeta in H. rewrite H. reflexivity.
Defined.



(** ** What a read can deliver *)

Section ReadTransfer.

Context {hdr : i2c_header}.
Hypothesis Hhdr : header_ok hdr.
Variable peer : peer_t.
Variable dev : i2c_dev_t.

Lemma recv_byte_ok_value (out : Z) (tr : trace) :
  fst (fst (i2c_master_recv_byte peer dev out tr)) = I2C_OK ->
  snd (fst (i2c_master_recv_byte peer dev out tr)) = 0xFF.
Proof.
  intros Hok.
  destruct (recv_byte_loop_ok peer dev 8 (timeout_not_ok hdr Hhdr) 0 out tr
              Hok) as [Hone Hd].
  unfold i2c_master_recv_byte. rewrite Hd. unfold shifted_in.
  rewrite Hone. reflexivity.
Qed.

Lemma transfer_loop_read_ok (action : Z) (buffer0 : list Z) (n : nat) :
  to_bool (Z.land action I2C_WRITE) = false ->
  forall i buffer tr,
    (forall j, (i <= j)%nat -> buf_get buffer j = buf_get buffer0 j) ->
    all_ok (fst (run_all (map (byte_phase peer dev action buffer0) (seq i n)
                          ++ stop_phase peer dev action) tr)) ->
    forall j, (i <= j < i + n)%nat -> (j < length buffer)%nat ->
      snd (fst (transfer_loop peer dev action n i buffer tr)) !! j
      = Some 0xFF.
Proof.
  intros Hw. induction n as [|n IH]; intros i buffer tr Hbuf Hok j Hj Hlen;
    [lia|].
  cbn [seq map app transfer_loop] in *. rewrite Hw.
  apply run_all_cons_ok in Hok as [Hbyte Hrest].
  rewrite byte_phase_read in Hbyte, Hrest by assumption.
  rewrite <- (Hbuf i) in * by lia.
  pose proof (recv_byte_ok_value _ _ Hbyte) as Hval.
  unfold st_bind, st_ret.
  destruct (i2c_master_recv_byte peer dev (buf_get buffer i) tr)
    as [[ret out] tr1].
  cbn [fst snd] in Hbyte, Hrest, Hval |- *. subst ret out.
  rewrite Z.eqb_refl.
  destruct (Nat.eq_dec j i) as [->|Hne].
  - destruct (transfer_loop_frame peer dev action n (S i)
                (<[i := 255]> buffer) tr1) as [_ F].
    rewrite F by lia. now apply list_lookup_insert_eq.
  - apply IH.
    + intros j' Hj'. rewrite buf_get_insert_ne by lia. apply Hbuf. lia.
    + exact Hrest.
    + lia.
    + now rewrite length_insert.
Qed.

End ReadTransfer.

(** X14: a transfer in the read direction of which every phase returns the
    success status has stored 0xFF in each of the [size] bytes it was asked
    to read, whatever the slave sent; [size] is the [uint8_t] that the
    argument is converted to. *)
Theorem read_transfer_ok_only_0xFF
  (hdr : i2c_header) (peer : peer_t) (dev : i2c_dev_t) (buffer : list Z)
  (size action : Z) (tr : trace) (j : nat) :
  header_ok hdr ->
  to_bool (Z.land action I2C_WRITE) = false ->
  all_ok (fst (run_all (phases peer dev buffer size action) tr)) ->
  (j < Z.to_nat (uint8 size))%nat ->
  (j < length buffer)%nat ->
  snd (fst (i2c_master_transfer peer dev buffer size action tr)) !! j
  = Some 0xFF.
Proof.
  intros Hhdr Hw Hok Hj Hlen.
  unfold i2c_master_transfer, phases, start_phase in *.
  destruct (to_bool (Z.land action I2C_START)).
  - cbn [app] in Hok.
    apply run_all_cons_ok in Hok as [Hstart Hok].
    apply run_all_cons_ok in Hok as [Haddr Hok].
    rewrite guard_run, Hstart, Z.eqb_refl.
    rewrite guard_run, Haddr, Z.eqb_refl.
    apply (transfer_loop_read_ok Hhdr peer dev action buffer); auto.
    lia.
  - cbn [app] in Hok.
    apply (transfer_loop_read_ok Hhdr peer dev action buffer); auto.
    lia.
Qed.

Lemma read_transfer_ok_only_0xFF_witness :
  snd (fst (i2c_master_transfer (hdr := header_with 1) idle_bus dev0
              [1; 2; 3] 2 4 [])) !! 1%nat
  = Some 0xFF.
Proof.
  apply (read_transfer_ok_only_0xFF (header_with 1) idle_bus dev0 [1; 2; 3]
           2 4 [] 1 (header_with_ok 1 ltac:(lia))).
  - reflexivity.
  - vm_compute. repeat constructor.
  - vm_compute. lia.
  - cbn. lia.
Defined.

(** ** The slave identifier in the address byte *)

Lemma addr_byte_low_bits (i1 i2 r : Z) :
  i1 mod 128 = i2 mod 128 ->
  uint8 (Z.lor (Z.shiftl i1 1) r) = uint8 (Z.lor (Z.shiftl i2 1) r).
Proof.
  intros H. unfold uint8. change 256 with (2 ^ 8).
  apply Z.bits_inj'. intros n Hn.
  destruct (Z.lt_ge_cases n 8) as [Hlt|Hge].
  - rewrite !Z.mod_pow2_bits_low, !Z.lor_spec, !Z.shiftl_spec by lia.
    f_equal. destruct (Z.eq_dec n 0) as [->|Hn0]; [reflexivity|].
    rewrite <- (Z.mod_pow2_bits_low i1 7), <- (Z.mod_pow2_bits_low i2 7)
      by lia.
    change (2 ^ 7) with 128. now rewrite H.
  - now rewrite !Z.mod_pow2_bits_high by lia.
Qed.

(** X15: the address byte is cut to 8 bits, so [i2c_master_send_addr] uses
    only the seven low bits of the slave identifier: two devices on the
    same bus whose identifiers agree modulo 128 are addressed by the same
    run. *)
Theorem send_addr_low_seven_bits
  (hdr : i2c_header) (peer : peer_t) (b : i2c_bus_cfg_t)
  (s1 s2 : i2c_slave_cfg_t) (read : bool) (tr : trace) :
  id s1 mod 128 = id s2 mod 128 ->
  i2c_master_send_addr peer {| bus := b; slave := s1 |} read tr
  = i2c_master_send_addr peer {| bus := b; slave := s2 |} read tr.
Proof.
  intros H. unfold i2c_master_send_addr. cbn [slave].
  rewrite (addr_byte_low_bits (id s1) (id s2) (b2z read) H).
  reflexivity.
Qed.

Lemma send_addr_low_seven_bits_witness :
  i2c_master_send_addr (hdr := header_with 1) idle_bus
    {| bus := bus dev0; slave := {| id := 0xA0; addr_bytes := 1 |} |}
    false []
  = i2c_master_send_addr (hdr := header_with 1) idle_bus
      {| bus := bus dev0; slave := {| id := 0x20; addr_bytes := 1 |} |}
      false [].
Proof.
  apply (send_addr_low_seven_bits (header_with 1) idle_bus (bus dev0)
           {| id := 0xA0; addr_bytes := 1 |}
           {| id := 0x20; addr_bytes := 1 |} false []).
  reflexivity.
Defined.

(** X16: a transfer that starts with a start condition and an address for
    writing can have all its phases succeed only when the success status is
    1: the address byte ends with a 0 bit, and a 0 bit that was sent makes
    [i2c_master_send_bit] return 1. *)
Theorem started_write_needs_status_1
  (hdr : i2c_header) (peer : peer_t) (dev : i2c_dev_t) (buffer : list Z)
  (size action : Z) (tr : trace) :
  header_ok hdr ->
  to_bool (Z.land action I2C_START) = true ->
  to_bool (Z.land action I2C_READ) = false ->
  all_ok (fst (run_all (phases peer dev buffer size action) tr)) ->
  I2C_OK = 1.
Proof.
  intros Hhdr Hstart Hread Hok.
  unfold phases, start_phase in Hok. rewrite Hstart, Hread in Hok.
  cbn [app] in Hok.
  apply run_all_cons_ok in Hok as [_ Hok].
  apply run_all_cons_ok in Hok as [Haddr _].
  exact (send_addr_write_ok peer dev (timeout_not_ok hdr Hhdr) _ Haddr).
Qed.

Lemma started_write_needs_status_1_witness :
  @I2C_OK (header_with 1) = 1.
Proof.
  apply (started_write_needs_status_1 (header_with 1) idle_bus dev0
           [1; 2; 3] 3 (Z.lor 1 (Z.lor 8 2)) []
           (header_with_ok 1 ltac:(lia))).
  - reflexivity.
  - reflexivity.
  - vm_compute. repeat constructor.
Defined.
